(** * BrowSir: popup-dismissal loop and local content extraction

    A shallow embedding of the request path of [app/main.py] and of the
    services it drives ([popup_detector.py], [browser_service.py],
    [local_content_extractor.py]), with the properties the specification
    states about them.

    Conventions.
    - A Python [str] is a [string]; every character stands for one code
      point below 256.
    - Values decoded from JSON are the inductive [Py.value].
    - Code that can raise runs in the monad [Eff.M]: the state survives an
      exception and [try ... except] is [Eff.catch]. *)

From Stdlib Require Import String Ascii List ZArith QArith Lia Bool Arith.
Import ListNotations.

Local Open Scope string_scope.
Set Warnings "-register-all".

(* ===================================================================== *)
(** * Python strings *)
(* ===================================================================== *)

Module Str.

(** ['\n'] *)
Definition nl : ascii := "010"%char.
(** [' '] *)
Definition sp : ascii := " "%char.

(** [str.isspace] on one code point below 256: U+0009..U+000D,
    U+001C..U+0020, U+0085 and U+00A0. *)
Definition isspace (c : ascii) : bool :=
  let n := nat_of_ascii c in
  ((9 <=? n) && (n <=? 13) || (28 <=? n) && (n <=? 32)
   || (n =? 133) || (n =? 160))%nat.

Fixpoint lstrip (s : string) : string :=
  match s with
  | EmptyString => EmptyString
  | String c s' => if isspace c then lstrip s' else s
  end.

Fixpoint rstrip (s : string) : string :=
  match s with
  | EmptyString => EmptyString
  | String c s' =>
      match rstrip s' with
      | EmptyString => if isspace c then EmptyString else String c EmptyString
      | r => String c r
      end
  end.

(** [s.strip()] *)
Definition strip (s : string) : string := rstrip (lstrip s).

(** [c * n] *)
Fixpoint replicate (n : nat) (c : ascii) : string :=
  match n with
  | O => EmptyString
  | S n' => String c (replicate n' c)
  end.

(** What a maximal run of [run] copies of [c] becomes under
    [re.sub(c{least,}, c * keep, _)]. *)
Definition flush (c : ascii) (least keep run : nat) : string :=
  if (run <? least)%nat then replicate run c else replicate keep c.

(** [re.sub] of the pattern [c{least,}] by [keep] copies of [c]; the
    pattern is greedy, so each maximal run of [c] is one match.  [run]
    counts the copies of [c] read since the last other character. *)
Fixpoint collapse_from (c : ascii) (least keep run : nat) (s : string)
  : string :=
  match s with
  | EmptyString => flush c least keep run
  | String a s' =>
      if Ascii.eqb a c then collapse_from c least keep (S run) s'
      else flush c least keep run ++ String a (collapse_from c least keep 0 s')
  end.

Definition collapse (c : ascii) (least keep : nat) (s : string) : string :=
  collapse_from c least keep 0 s.

(** [sep.join(parts)] *)
Fixpoint join (sep : string) (parts : list string) : string :=
  match parts with
  | [] => EmptyString
  | [p] => p
  | p :: rest => p ++ sep ++ join sep rest
  end.

(** [s.startswith(p)] *)
Definition startswith (s p : string) : bool := String.prefix p s.

(** Every maximal run of [c] in [s] is shorter than [least], where [run]
    copies of [c] stand just before [s]. *)
Fixpoint runs_below (c : ascii) (least run : nat) (s : string) : bool :=
  match s with
  | EmptyString => (run <? least)%nat
  | String a s' =>
      if Ascii.eqb a c then runs_below c least (S run) s'
      else (run <? least)%nat && runs_below c least 0 s'
  end.

(** ** Python's [int(s)] on a string, base 10 *)

Definition digit_of (c : ascii) : option Z :=
  let n := nat_of_ascii c in
  if ((48 <=? n) && (n <=? 57))%nat then Some (Z.of_nat (n - 48)) else None.

Definition underscore : ascii := "_"%char.

(** Digits with single underscores between them: [acc] is the value read so
    far, [after_digit] tells whether the previous character was a digit. *)
Fixpoint int_digits (acc : Z) (after_digit : bool) (s : string) : option Z :=
  match s with
  | EmptyString => if after_digit then Some acc else None
  | String c s' =>
      match digit_of c with
      | Some d => int_digits (10 * acc + d) true s'
      | None =>
          if Ascii.eqb c underscore && after_digit
          then match s' with
               | EmptyString => None
               | String c' _ =>
                   match digit_of c' with
                   | Some _ => int_digits acc false s'
                   | None => None
                   end
               end
          else None
      end
  end.

(** The whitespace [int] accepts around a number: the ASCII characters
    U+0009..U+000D and U+0020, and U+0085 and U+00A0, which it turns into
    spaces first.  U+001C..U+001F, which [str.strip] removes, are not
    among them. *)
Definition int_space (c : ascii) : bool :=
  let n := nat_of_ascii c in
  ((9 <=? n) && (n <=? 13) || (n =? 32) || (n =? 133) || (n =? 160))%nat.

Fixpoint int_lstrip (s : string) : string :=
  match s with
  | EmptyString => EmptyString
  | String c s' => if int_space c then int_lstrip s' else s
  end.

Fixpoint int_rstrip (s : string) : string :=
  match s with
  | EmptyString => EmptyString
  | String c s' =>
      match int_rstrip s' with
      | EmptyString => if int_space c then EmptyString
                       else String c EmptyString
      | r => String c r
      end
  end.

(** How many decimal digits a string holds. *)
Fixpoint count_digits (s : string) : nat :=
  match s with
  | EmptyString => O
  | String c s' =>
      match digit_of c with
      | Some _ => S (count_digits s')
      | None => count_digits s'
      end
  end.

(** [sys.get_int_max_str_digits()], by default. *)
Definition int_max_str_digits : nat := 4300.

(** The digits of a number, within the limit on their count. *)
Definition int_body (s : string) : option Z :=
  if (int_max_str_digits <? count_digits s)%nat then None
  else int_digits 0 false s.

(** [int(s)]: the whitespace of [int_space] around the number is dropped,
    one sign is allowed, then decimal digits, no more than
    [int_max_str_digits] of them; [None] is [ValueError]. *)
Definition py_int (s : string) : option Z :=
  match int_rstrip (int_lstrip s) with
  | EmptyString => None
  | String c rest =>
      if Ascii.eqb c "-"%char then option_map Z.opp (int_body rest)
      else if Ascii.eqb c "+"%char then int_body rest
      else int_body (String c rest)
  end.

End Str.

(* ===================================================================== *)
(** * Python values and exceptions *)
(* ===================================================================== *)

Module Py.

(** What [json.loads] can return.  A JSON number is a Python [int] or a
    finite [float], kept as its exact value [VNum q]; [json.loads] also
    reads [Infinity], [-Infinity] and [NaN].  A dict is its list of items in
    insertion order. *)
Inductive value : Type :=
| VNone
| VBool (b : bool)
| VNum (q : Q)
| VInf (negative : bool)
| VNaN
| VStr (s : string)
| VList (items : list value)
| VDict (items : list (string * value)).

Inductive exn : Type :=
| TypeError
| AttributeError
| KeyError
| ValueError
| RuntimeError
| JSONDecodeError
| APIError
| DriverError
| HTTPException (status_code : Z).

(** [bool(v)] *)
Definition truthy (v : value) : bool :=
  match v with
  | VNone => false
  | VBool b => b
  | VNum q => negb (Qeq_bool q 0)
  | VInf _ => true
  | VNaN => true
  | VStr s => negb (s =? "")
  | VList l => match l with [] => false | _ => true end
  | VDict d => match d with [] => false | _ => true end
  end.

(** [bool(s)] for a string or [None] *)
Definition truthy_str (o : option string) : bool :=
  match o with
  | Some s => negb (s =? "")
  | None => false
  end.

Fixpoint lookup (key : string) (d : list (string * value)) : option value :=
  match d with
  | [] => None
  | (k, v) :: rest => if k =? key then Some v else lookup key rest
  end.

(** [v.get(key, default)]: only a dict has [get]. *)
Definition get (v : value) (key : string) (default : value) : exn + value :=
  match v with
  | VDict d => inr (match lookup key d with Some x => x | None => default end)
  | _ => inl AttributeError
  end.

(** The threshold [0.3].  The literal is the binary64 float nearest to
    3/10, [float_literal] below; no [int] and no binary64 float lies
    between the two ([PyFacts.threshold_on_floats]), so a Python number is
    greater than the float [0.3] exactly when its value is greater than
    3/10. *)
Definition threshold : Q := 3 # 10.

(** The exact value of the float [0.3]: 5404319552844595 / 2^54. *)
Definition float_literal : Q := 5404319552844595 # 18014398509481984.

(** The value of the binary64 float with significand [m] and exponent
    [e], that is [m * 2^e]. *)
Definition binary64_value (m e : Z) : Q :=
  if (0 <=? e)%Z then inject_Z (m * 2 ^ e)
  else m # Z.to_pos (2 ^ (- e)).

(** [v > 0.3]: numbers (and [bool], a subclass of [int]) compare by value,
    [nan] compares false, anything else is a [TypeError]. *)
Definition gt_threshold (v : value) : exn + bool :=
  match v with
  | VBool b => inr b
  | VNum q => inr (negb (Qle_bool q threshold))
  | VInf negative => inr (negb negative)
  | VNaN => inr false
  | _ => inl TypeError
  end.

Fixpoint chars (s : string) : list value :=
  match s with
  | EmptyString => []
  | String c s' => VStr (String c EmptyString) :: chars s'
  end.

(** [iter(v)], as a [for] loop runs through it. *)
Definition iterate (v : value) : exn + list value :=
  match v with
  | VList l => inr l
  | VStr s => inr (chars s)
  | VDict d => inr (map (fun kv => VStr (fst kv)) d)
  | _ => inl TypeError
  end.

End Py.

(* ===================================================================== *)
(** * State and exceptions *)
(* ===================================================================== *)

Module Eff.
Import Py.

(** A computation over a store [S] that returns an [A] or raises. *)
Definition M (S A : Type) : Type := S -> S * (exn + A).

Definition ret {S A} (a : A) : M S A := fun s => (s, inr a).

Definition raise {S A} (e : exn) : M S A := fun s => (s, inl e).

Definition bind {S A B} (m : M S A) (k : A -> M S B) : M S B :=
  fun s =>
    match m s with
    | (s', inr a) => k a s'
    | (s', inl e) => (s', inl e)
    end.

(** [try: m  except Exception as e: h e] *)
Definition catch {S A} (m : M S A) (h : exn -> M S A) : M S A :=
  fun s =>
    match m s with
    | (s', inl e) => h e s'
    | r => r
    end.

(** [try: m  finally: f] *)
Definition finally {S A} (m : M S A) (f : M S unit) : M S A :=
  fun s =>
    match m s with
    | (s', r) =>
        match f s' with
        | (s'', inr _) => (s'', r)
        | (s'', inl e) => (s'', inl e)
        end
    end.

(** A pure step that may raise. *)
Definition lift {S A} (r : exn + A) : M S A := fun s => (s, r).

Definition get_store {S} : M S S := fun s => (s, inr s).

Definition put_store {S} (s' : S) : M S unit := fun _ => (s', inr tt).

Declare Scope eff_scope.
Delimit Scope eff_scope with eff.

Notation "x <- m ;; k" := (bind m (fun x => k))
  (at level 61, m at next level, right associativity) : eff_scope.
Notation "m ;; k" := (bind m (fun _ => k))
  (at level 61, right associativity) : eff_scope.

End Eff.

(* ===================================================================== *)
(** * The document tree of BeautifulSoup *)
(* ===================================================================== *)

Module Dom.
Import Str.

(** A parsed document.  [Text] is a string that [get_text] reads
    ([NavigableString], [CData]); [Hidden] is one it leaves out (a comment,
    a doctype, the source inside a script or style element).  Attribute
    values are kept as the strings of the markup; tag and attribute names
    are lower case, as [html.parser] delivers them. *)
Inductive node : Type :=
| Text (s : string)
| Hidden (s : string)
| Tag (name : string) (attrs : list (string * string)) (contents : list node).

(** The [BeautifulSoup] object: the top-level nodes of the document. *)
Definition soup : Type := list node.

(** [tag.descendants], in document order. *)
Fixpoint descendants (n : node) : list node :=
  match n with
  | Tag _ _ cs => flat_map (fun c => c :: descendants c) cs
  | _ => []
  end.

Definition soup_descendants (doc : soup) : list node :=
  flat_map (fun c => c :: descendants c) doc.

Definition name_of (n : node) : option string :=
  match n with
  | Tag nm _ _ => Some nm
  | _ => None
  end.

Fixpoint attr_lookup (key : string) (attrs : list (string * string))
  : option string :=
  match attrs with
  | [] => None
  | (k, v) :: rest => if k =? key then Some v else attr_lookup key rest
  end.

(** [tag.get(key)] *)
Definition get (n : node) (key : string) : option string :=
  match n with
  | Tag _ attrs _ => attr_lookup key attrs
  | _ => None
  end.

Definition is_named (names : list string) (n : node) : bool :=
  match n with
  | Tag nm _ _ => existsb (String.eqb nm) names
  | _ => false
  end.

Definition has_attr (key val : string) (n : node) : bool :=
  match get n key with
  | Some v => v =? val
  | None => false
  end.

(** [soup.find_all(names)] and [soup(names)] *)
Definition find_all (names : list string) (doc : soup) : list node :=
  filter (is_named names) (soup_descendants doc).

(** [tag.find_all(names)] *)
Definition find_all_in (names : list string) (n : node) : list node :=
  filter (is_named names) (descendants n).

(** [soup.find(name)] *)
Definition find (name : string) (doc : soup) : option node :=
  hd_error (find_all [name] doc).

(** [soup.find(name, attrs={key: val})] *)
Definition find_with (name key val : string) (doc : soup) : option node :=
  hd_error (filter (fun n => is_named [name] n && has_attr key val n)
              (soup_descendants doc)).

Definition text_of (n : node) : list string :=
  match n with
  | Text s => [s]
  | _ => []
  end.

(** [tag.get_text(strip=True)]: every string below the tag is stripped,
    the empty ones are dropped, the rest are concatenated. *)
Definition get_text_strip (n : node) : string :=
  String.concat ""
    (filter (fun t => negb (t =? ""))
       (map strip (flat_map text_of (descendants n)))).

(** The tree once every tag named in [names] has been decomposed. *)
Fixpoint prune (names : list string) (n : node) : list node :=
  match n with
  | Tag nm attrs cs =>
      if existsb (String.eqb nm) names then []
      else [Tag nm attrs (flat_map (prune names) cs)]
  | other => [other]
  end.

Definition decompose_all (names : list string) (doc : soup) : soup :=
  flat_map (prune names) doc.

(** ** The selectors given to [select_one] *)

Inductive selector : Type :=
| ByTag (name : string)               (* main *)
| ByAttr (key val : string)           (* [role="main"] *)
| ById (id : string)                  (* #content *)
| ByClass (cls : string).             (* .content *)

(** The whitespace-separated words of a [class] attribute; [word] is the
    word being read. *)
Fixpoint words_from (word : string) (s : string) : list string :=
  match s with
  | EmptyString => if word =? "" then [] else [word]
  | String c s' =>
      if isspace c
      then (if word =? "" then words_from "" s'
            else word :: words_from "" s')
      else words_from (word ++ String c EmptyString) s'
  end.

Definition matches (sel : selector) (n : node) : bool :=
  match sel with
  | ByTag nm => is_named [nm] n
  | ByAttr key val => has_attr key val n
  | ById id => has_attr "id" id n
  | ByClass cls =>
      match get n "class" with
      | Some v => existsb (String.eqb cls) (words_from "" v)
      | None => false
      end
  end.

Definition is_tag (n : node) : bool :=
  match n with
  | Tag _ _ _ => true
  | _ => false
  end.

(** [soup.select_one(sel)] *)
Definition select_one (sel : selector) (doc : soup) : option node :=
  hd_error (filter (fun n => is_tag n && matches sel n) (soup_descendants doc)).

(** The first selector of [sels] that selects something. *)
Fixpoint select_first (sels : list selector) (doc : soup) : option node :=
  match sels with
  | [] => None
  | sel :: rest =>
      match select_one sel doc with
      | Some n => Some n
      | None => select_first rest doc
      end
  end.

End Dom.

(* ===================================================================== *)
(** * services/local_content_extractor.py *)
(* ===================================================================== *)

Module LocalContentExtractor.
Import Str Py Eff Dom.
Local Open Scope eff_scope.

(** What [urlparse] returns, as far as the extractor reads it. *)
Record ParseResult : Type := { scheme : string; netloc : string }.

(** The dict [extract_content] returns. *)
Record content : Type :=
  { title : string; body : string; images : list string }.

Definition empty_content : content :=
  {| title := ""; body := ""; images := [] |}.

(** ** [_extract_title] *)

(** The four lambdas; [inr None] is Python's [None], [inl] an exception. *)
Definition strategies (doc : soup) : list (unit -> exn + option string) :=
  [ (fun _ => match find "h1" doc with
              | Some t => inr (Some (get_text_strip t))
              | None => inr None
              end);
    (fun _ => match find "title" doc with
              | Some t => inr (Some (get_text_strip t))
              | None => inr None
              end);
    (fun _ => match find_with "meta" "property" "og:title" doc with
              | Some t => match get t "content" with
                          | Some c => inr (Some c)
                          | None => inl KeyError
                          end
              | None => inr None
              end);
    (fun _ => match find_with "meta" "name" "title" doc with
              | Some t => match get t "content" with
                          | Some c => inr (Some c)
                          | None => inl KeyError
                          end
              | None => inr None
              end) ].

(** The loop over the strategies: a truthy result is returned, an
    exception moves on to the next one. *)
Fixpoint first_title (l : list (unit -> exn + option string)) : string :=
  match l with
  | [] => "Untitled"
  | strategy :: rest =>
      match strategy tt with
      | inr t => if truthy_str t
                 then match t with Some x => x | None => "" end
                 else first_title rest
      | inl _ => first_title rest
      end
  end.

Definition _extract_title : M soup string :=
  doc <- get_store ;; ret (first_title (strategies doc)).

(** ** [_extract_body] *)

Definition unwanted : list string :=
  ["script"; "style"; "nav"; "header"; "footer"; "aside"; "iframe"].

Definition text_tags : list string :=
  ["p"; "h1"; "h2"; "h3"; "h4"; "h5"; "h6"; "li"; "td"; "th"; "div"].

Definition blank_line : string := String nl (String nl EmptyString).

(** The markdown given to one element's text. *)
Definition format_text (element : node) (text : string) : string :=
  if is_named ["h1"; "h2"; "h3"] element
  then blank_line ++ "**" ++ text ++ "**" ++ String nl EmptyString
  else if is_named ["li"] element then "- " ++ text
  else text.

(** The loop over the text elements, [text_parts] being the list built so
    far. *)
Fixpoint collect_text (elements : list node) (text_parts : list string)
  : list string :=
  match elements with
  | [] => text_parts
  | element :: rest =>
      let text := get_text_strip element in
      if negb (text =? "") && (20 <? String.length text)%nat
      then collect_text rest (text_parts ++ [format_text element text])
      else collect_text rest text_parts
  end.

(** The clean-up of the joined text: [re.sub(r'\n{3,}', '\n\n', _)], then
    [re.sub(r' {2,}', ' ', _)], then [strip()]. *)
Definition clean_up (body : string) : string :=
  strip (collapse sp 2 1 (collapse nl 3 2 body)).

(** The main content area, by the three strategies in turn. *)
Definition main_content (doc : soup) : option node :=
  match select_first [ByTag "main"; ByTag "article"; ByAttr "role" "main"]
          doc with
  | Some n => Some n
  | None =>
      match select_first [ById "content"; ById "main-content";
                          ByClass "content"; ByClass "main-content";
                          ByClass "article-body"] doc with
      | Some n => Some n
      | None => find "body" doc
      end
  end.

(** The unwanted elements are decomposed in the soup itself: the store
    keeps the pruned tree for whoever reads it next. *)
Definition _extract_body : M soup string :=
  doc <- get_store ;;
  put_store (decompose_all unwanted doc) ;;
  doc <- get_store ;;
  match main_content doc with
  | None => ret ""
  | Some area =>
      let text_parts := collect_text (find_all_in text_tags area) [] in
      ret (clean_up (join blank_line text_parts))
  end.

(** ** [_extract_images] *)

(** [a or b] on attribute values *)
Definition or_else (a b : option string) : option string :=
  if truthy_str a then a else b.

(** The body of the [try] around the size test: [inr true] is [continue],
    [inl] a [ValueError] of [int]. *)
Definition small_dimensions (width height : option string) : exn + bool :=
  match width, height with
  | Some w, Some h =>
      if truthy_str width && truthy_str height then
        match py_int w with
        | None => inl ValueError
        | Some wv =>
            if (wv <? 100)%Z then inr true
            else match py_int h with
                 | None => inl ValueError
                 | Some hv => inr (hv <? 100)%Z
                 end
        end
      else inr false
  | _, _ => inr false
  end.

(** The size test with its [except: pass]. *)
Definition skip_small (width height : option string) : bool :=
  match small_dimensions width height with
  | inr b => b
  | inl _ => false
  end.

Section Extractor.

(** [BeautifulSoup(html, 'html.parser')] and [urllib.parse.urlparse]: the
    two library calls of the extractor. *)
Variable BeautifulSoup : string -> exn + soup.
Variable urlparse : string -> exn + ParseResult.

(** The loop over the [img] tags, [images] being the list built so far. *)
Fixpoint images_loop (base_url : string) (imgs : list node)
  (images : list string) : exn + list string :=
  match imgs with
  | [] => inr images
  | img :: rest =>
      match or_else (get img "src") (get img "data-src") with
      | Some src =>
          if negb (src =? "") then
            if skip_small (get img "width") (get img "height")
            then images_loop base_url rest images
            else if startswith src "//"
            then images_loop base_url rest (images ++ ["https:" ++ src])
            else if startswith src "/"
            then match urlparse base_url with
                 | inl e => inl e
                 | inr parsed =>
                     images_loop base_url rest
                       (images ++
                        [scheme parsed ++ "://" ++ netloc parsed ++ src])
                 end
            else if negb (startswith src "http")
            then images_loop base_url rest images
            else images_loop base_url rest (images ++ [src])
          else images_loop base_url rest images
      | None => images_loop base_url rest images
      end
  end.

Definition _extract_images (base_url : string) : M soup (list string) :=
  doc <- get_store ;;
  images <- lift (images_loop base_url (find_all ["img"] doc) []) ;;
  ret (firstn 10 images).

(** ** [extract_content] *)

(** The three steps on the one soup. *)
Definition extract_steps (url : string) : M soup content :=
  title <- _extract_title ;;
  body <- _extract_body ;;
  images <- _extract_images url ;;
  ret {| title := title; body := body; images := images |}.

(** The body of the [try]. *)
Definition extract_content_try (html url : string) : exn + content :=
  match BeautifulSoup html with
  | inl e => inl e
  | inr doc => snd (extract_steps url doc)
  end.

(** [extract_content]: any exception gives the three empty fields. *)
Definition extract_content (html url : string) : content :=
  match extract_content_try html url with
  | inr c => c
  | inl _ => empty_content
  end.

End Extractor.

End LocalContentExtractor.

(* ===================================================================== *)
(** * The world outside: the Playwright driver and the OpenAI service *)
(* ===================================================================== *)

Module World.
Import Py.

(** What [page.click] is given: the selector itself or one of the two
    text selectors built from the button text. *)
Inductive locator : Type :=
| Css (selector : value)
| ButtonHasText (button_text : value)   (* button:has-text('...') *)
| AnyHasText (button_text : value).     (* :has-text('...') *)

(** Every call acts on the world [W] and returns or raises. *)
Record Env : Type :=
  { W : Type;
    ElementHandle : Type;
    Frame : Type;
    (* Playwright *)
    playwright_start : W -> W * (exn + unit);
    chromium_launch : bool -> W -> W * (exn + unit);
    browser_new_context : W -> W * (exn + unit);
    context_new_page : W -> W * (exn + unit);
    browser_new_page : W -> W * (exn + unit);
    page_set_default_timeout : Z -> W -> W * (exn + unit);
    page_goto : string -> W -> W * (exn + unit);
    page_wait_for_timeout : Z -> W -> W * (exn + unit);
    page_content : W -> W * (exn + string);
    page_click : locator -> Z -> bool -> W -> W * (exn + unit);
    page_query_selector : value -> W -> W * (exn + option ElementHandle);
    element_evaluate_click : ElementHandle -> W -> W * (exn + unit);
    page_frames : W -> W * (exn + list Frame);
    frame_query_selector :
      Frame -> value -> W -> W * (exn + option ElementHandle);
    element_click : ElementHandle -> Z -> W -> W * (exn + unit);
    page_close : W -> W * (exn + unit);
    browser_close : W -> W * (exn + unit);
    playwright_stop : W -> W * (exn + unit);
    (* OpenAI: [chat.completions.create] on the prompt built from the HTML
       sample, followed by [json.loads] of the message; [inl] when either
       raises *)
    chat_completion_json : string -> W -> W * (exn + value) }.

(** What one request leaves behind, for the statements only: a question
    to the oracle, a candidate handed to [click_element] with what it
    returned, a call of [asyncio.sleep]. *)
Inductive event : Type :=
| Queried (html_sample : string)
| Interaction (selector button_text : value) (clicked : bool)
| Slept (seconds : Z).

(** The [BrowserService] object of one request, the world it acts on and
    the events so far. *)
Record state (E : Env) : Type :=
  { world : W E;
    playwright : bool;
    browser : bool;
    page : bool;
    trace : list event }.

Arguments world {E} _.
Arguments playwright {E} _.
Arguments browser {E} _.
Arguments page {E} _.
Arguments trace {E} _.

Definition initial {E : Env} (w : W E) : state E :=
  {| world := w; playwright := false; browser := false; page := false;
     trace := [] |}.

End World.

(* ===================================================================== *)
(** * services/browser_service.py *)
(* ===================================================================== *)

Module BrowserService.
Import Py Eff World.
Local Open Scope eff_scope.

Section Service.
Context {E : Env}.

Local Abbreviation St := (state E).

(** A call to the world. *)
Definition call {A} (op : W E -> W E * (exn + A)) : M St A :=
  fun s =>
    let (w, r) := op (world s) in
    ({| world := w; playwright := playwright s; browser := browser s;
        page := page s; trace := trace s |}, r).

Definition tell (ev : event) : M St unit :=
  fun s =>
    ({| world := world s; playwright := playwright s; browser := browser s;
        page := page s; trace := trace s ++ [ev] |}, inr tt).

Definition set_playwright (b : bool) : M St unit :=
  fun s =>
    ({| world := world s; playwright := b; browser := browser s;
        page := page s; trace := trace s |}, inr tt).

Definition set_browser (b : bool) : M St unit :=
  fun s =>
    ({| world := world s; playwright := playwright s; browser := b;
        page := page s; trace := trace s |}, inr tt).

Definition set_page (b : bool) : M St unit :=
  fun s =>
    ({| world := world s; playwright := playwright s; browser := browser s;
        page := b; trace := trace s |}, inr tt).

(** [self.timeout]: seconds turned into milliseconds. *)
Definition timeout_ms (timeout : Z) : Z := (timeout * 1000)%Z.

(** [_init_browser]: [self.playwright], [self.browser] and [self.page]
    are assigned one after the other inside the [try], the page before its
    default time-out is set; what was assigned stays when a later call
    raises. *)
Definition _init_browser (headless : bool) (timeout : Z) : M St unit :=
  catch
    (call (playwright_start E) ;; set_playwright true ;;
     call (chromium_launch E headless) ;; set_browser true ;;
     call (browser_new_context E) ;;
     call (context_new_page E) ;; set_page true ;;
     call (page_set_default_timeout E (timeout_ms timeout)))
    (fun _ => raise RuntimeError).

Definition load_page (headless : bool) (timeout : Z) (url : string)
  : M St string :=
  s <- get_store ;;
  (if negb (page s) then _init_browser headless timeout else ret tt) ;;
  call (page_goto E url) ;;
  call (page_wait_for_timeout E 3000) ;;
  call (page_content E).

(** One [try] block that ends in [return True]: [true] when [body] ran to
    its end, [false] when it raised and the [except] only logged. *)
Definition attempt (body : M St unit) : M St bool :=
  catch (body ;; ret true) (fun _ => ret false).

(** Strategy 1: standard click. *)
Definition standard_click (selector : value) : M St bool :=
  attempt (call (page_click E (Css selector) 5000 false) ;;
           call (page_wait_for_timeout E 1000)).

(** Strategy 2: the two text selectors, when [button_text] is truthy. *)
Definition text_click (button_text : value) : M St bool :=
  if truthy button_text then
    clicked <- attempt (call (page_click E (ButtonHasText button_text)
                                5000 false) ;;
                        call (page_wait_for_timeout E 1000)) ;;
    if clicked then ret true
    else attempt (call (page_click E (AnyHasText button_text) 5000 false) ;;
                  call (page_wait_for_timeout E 1000))
  else ret false.

(** Strategy 3: force click. *)
Definition force_click (selector : value) : M St bool :=
  attempt (call (page_click E (Css selector) 5000 true) ;;
           call (page_wait_for_timeout E 1000)).

(** Strategy 4: JavaScript click; nothing is done when the selector finds
    no element. *)
Definition js_click (selector : value) : M St bool :=
  catch
    (element <- call (page_query_selector E selector) ;;
     match element with
     | Some el =>
         call (element_evaluate_click E el) ;;
         call (page_wait_for_timeout E 1000) ;;
         ret true
     | None => ret false
     end)
    (fun _ => ret false).

(** The loop over the frames, each with its own [try]. *)
Fixpoint frames_loop (selector : value) (frames : list (Frame E))
  : M St bool :=
  match frames with
  | [] => ret false
  | frame :: rest =>
      clicked <- catch
                   (element <- call (frame_query_selector E frame selector) ;;
                    match element with
                    | Some el =>
                        call (element_click E el 5000) ;;
                        call (page_wait_for_timeout E 1000) ;;
                        ret true
                    | None => ret false
                    end)
                   (fun _ => ret false) ;;
      if clicked then ret true else frames_loop selector rest
  end.

(** Strategy 5: the frames of the page. *)
Definition iframe_click (selector : value) : M St bool :=
  catch
    (frames <- call (page_frames E) ;; frames_loop selector frames)
    (fun _ => ret false).

(** [click_element]: the five blocks one after the other inside the outer
    [try], which answers [False] to any exception. *)
Definition click_element (selector button_text : value) : M St bool :=
  catch
    (s <- get_store ;;
     if negb (page s) then ret false
     else
       clicked <- standard_click selector ;;
       if clicked then ret true else
       clicked <- text_click button_text ;;
       if clicked then ret true else
       clicked <- force_click selector ;;
       if clicked then ret true else
       clicked <- js_click selector ;;
       if clicked then ret true else
       clicked <- iframe_click selector ;;
       if clicked then ret true else
       ret false)
    (fun _ => ret false).

Definition get_html : M St string :=
  s <- get_store ;;
  if negb (page s) then raise RuntimeError else call (page_content E).

Definition close : M St unit :=
  s <- get_store ;;
  (if page s then call (page_close E) ;; set_page false else ret tt) ;;
  s <- get_store ;;
  (if browser s then call (browser_close E) ;; set_browser false
   else ret tt) ;;
  s <- get_store ;;
  (if playwright s then call (playwright_stop E) ;; set_playwright false
   else ret tt).

End Service.

End BrowserService.

(* ===================================================================== *)
(** * services/popup_detector.py, config.py, models *)
(* ===================================================================== *)

Module PopupDetector.
Import Py Eff World BrowserService.
Local Open Scope eff_scope.

(** The first 50000 characters. *)
Definition sample_limit : nat := Z.to_nat 50000.

Definition html_sample (html : string) : string :=
  if (sample_limit <? String.length html)%nat
  then substring 0 sample_limit html
  else html.

(** What [detect_popups] returns when anything in its [try] raises. *)
Definition no_popups : value :=
  VDict [("popups_found", VBool false); ("elements", VList [])].

(** [detect_popups]: the decoded reply as it comes, or [no_popups] when
    the call or the decoding raised. *)
Definition detect_popups {E : Env} (html : string) : M (state E) value :=
  catch
    (tell (Queried (html_sample html)) ;;
     call (chat_completion_json E (html_sample html)))
    (fun _ => ret no_popups).

End PopupDetector.

Module Config.

Record Settings : Type :=
  { selenium_timeout : Z;
    max_popup_retries : Z;
    chrome_headless : bool }.

(** The defaults of [config.py]. *)
Definition defaults : Settings :=
  {| selenium_timeout := 30; max_popup_retries := 3;
     chrome_headless := true |}.

End Config.

Module Models.
Import Py.

(** [ExtractRequest.validate_url_scheme], on the scheme of the URL. *)
Definition validate_url_scheme (scheme : string) : exn + string :=
  if existsb (String.eqb scheme) ["http"; "https"] then inr scheme
  else inl ValueError.

(** [ArticleContent], without its time stamp. *)
Record ArticleContent : Type :=
  { title : string; body : string; images : list string; url : string }.

(** [ExtractResponse] *)
Record ExtractResponse : Type :=
  { success : bool; data : option ArticleContent }.

End Models.

(* ===================================================================== *)
(** * main.py: the [/extract] endpoint *)
(* ===================================================================== *)

Module Main.
Import Py Eff World BrowserService PopupDetector Config.
Local Open Scope eff_scope.

(** How the popup loop ended: by [break] on no popup, by [break] on no
    click, or by the end of [range]. *)
Inductive loop_exit : Type := CleanExit | Stalled | Exhausted.

Section Endpoint.
Context {E : Env}.
Variable BeautifulSoup : string -> exn + Dom.soup.
Variable urlparse : string -> exn + LocalContentExtractor.ParseResult.
Variable settings : Settings.

Local Abbreviation St := (state E).

(** [range(n)] *)
Definition range (n : Z) : list nat := seq 0 (Z.to_nat n).

(** The loop over the elements of one reply; the result is
    [clicked_any]. *)
Fixpoint scan_elements (elements : list value) : M St bool :=
  match elements with
  | [] => ret false
  | element :: rest =>
      selector <- lift (get element "selector" VNone) ;;
      confidence <- lift (get element "confidence" (VNum 0)) ;;
      element_type <- lift (get element "type" (VStr "unknown")) ;;
      button_text <- lift (get element "button_text" (VStr "")) ;;
      above <- lift (gt_threshold confidence) ;;
      if above && truthy selector then
        clicked <- click_element selector button_text ;;
        tell (Interaction selector button_text clicked) ;;
        if clicked then ret true else scan_elements rest
      else scan_elements rest
  end.

(** The retry loop; it returns how it ended and the HTML it ended with. *)
Fixpoint popup_loop (attempts : list nat) (html : string)
  : M St (loop_exit * string) :=
  match attempts with
  | [] => ret (Exhausted, html)
  | _ :: rest =>
      popup_result <- detect_popups html ;;
      found <- lift (get popup_result "popups_found" (VBool false)) ;;
      if negb (truthy found) then ret (CleanExit, html)
      else
        elements <- lift (get popup_result "elements" (VList [])) ;;
        items <- lift (iterate elements) ;;
        clicked_any <- scan_elements items ;;
        if clicked_any then
          tell (Slept 5) ;;
          html' <- get_html ;;
          popup_loop rest html'
        else ret (Stalled, html)
  end.

(** The test that raises 404. *)
Definition no_article (content : LocalContentExtractor.content) : bool :=
  negb (truthy_str (Some (LocalContentExtractor.title content)))
  && negb (truthy_str (Some (LocalContentExtractor.body content))).

(** The body of the outer [try].  The constructors of the three services
    only store their arguments. *)
Definition extract_body (url : string) : M St Models.ExtractResponse :=
  html <- load_page (chrome_headless settings) (selenium_timeout settings)
            url ;;
  _ <- popup_loop (range (max_popup_retries settings)) html ;;
  tell (Slept 3) ;;
  final_html <- get_html ;;
  let content :=
    LocalContentExtractor.extract_content BeautifulSoup urlparse
      final_html url in
  if no_article content then raise (HTTPException 404)
  else
    ret {| Models.success := true;
           Models.data :=
             Some {| Models.title := LocalContentExtractor.title content;
                     Models.body := LocalContentExtractor.body content;
                     Models.images := LocalContentExtractor.images content;
                     Models.url := url |} |}.

(** [extract_content] of [main.py]: an [HTTPException] passes, any other
    exception becomes a 500, and the browser is closed on every path. *)
Definition extract_content (url : string) : M St Models.ExtractResponse :=
  finally
    (catch (extract_body url)
       (fun e =>
          match e with
          | HTTPException _ => raise e
          | _ => raise (HTTPException 500)
          end))
    close.

End Endpoint.

End Main.

(* ===================================================================== *)
(** * The properties in the specification's words *)
(* ===================================================================== *)

Module Stated.
Import Str Py Dom World.

(** ** Title resolution: first non-empty wins *)

Fixpoint first_non_empty (candidates : list (option string))
  (fallback : string) : string :=
  match candidates with
  | [] => fallback
  | Some t :: rest =>
      if t =? "" then first_non_empty rest fallback else t
  | None :: rest => first_non_empty rest fallback
  end.

(** The content attribute of the first [meta] tag whose [key] is [val]. *)
Definition meta_content (key val : string) (doc : soup) : option string :=
  match find_with "meta" key val doc with
  | Some t => get t "content"
  | None => None
  end.

(** First heading's text, title element's text, Open Graph title, meta
    title. *)
Definition title_candidates (doc : soup) : list (option string) :=
  [ option_map get_text_strip (find "h1" doc);
    option_map get_text_strip (find "title" doc);
    meta_content "property" "og:title" doc;
    meta_content "name" "title" doc ].

(** ** Images: what makes one qualify *)

(** Direct source attribute or, if absent, the lazy-load one. *)
Definition source_of (img : node) : option string :=
  match get img "src" with
  | Some src => if src =? "" then get img "data-src" else Some src
  | None => get img "data-src"
  end.

(** Protocol-relative and root-relative sources made absolute, the others
    kept when they start with [http] and dropped otherwise. *)
Definition normalized (parsed : LocalContentExtractor.ParseResult)
  (src : string) : option string :=
  if startswith src "//" then Some ("https:" ++ src)
  else if startswith src "/"
  then Some (LocalContentExtractor.scheme parsed ++ "://"
             ++ LocalContentExtractor.netloc parsed ++ src)
  else if startswith src "http" then Some src
  else None.

Definition starts_with_http (src : string) : Prop :=
  startswith src "http" = true.

(** [out] is the source [src] made absolute for the page at [url]: with
    [https:] in front when [src] starts with two slashes, with the scheme
    and the host of the page in front when it starts with one, and [src]
    itself when it starts with [http]. *)
Definition made_absolute
  (urlparse : string -> exn + LocalContentExtractor.ParseResult)
  (url src out : string) : Prop :=
  (startswith src "//" = true /\ out = "https:" ++ src)
  \/ (startswith src "//" = false /\ startswith src "/" = true
      /\ exists parsed,
           urlparse url = inr parsed
           /\ out = LocalContentExtractor.scheme parsed ++ "://"
                    ++ LocalContentExtractor.netloc parsed ++ src)
  \/ (startswith src "/" = false /\ startswith src "http" = true
      /\ out = src).

(** The URL an image contributes, if it qualifies. *)
Definition qualifying_source (parsed : LocalContentExtractor.ParseResult)
  (img : node) : option string :=
  match source_of img with
  | Some src =>
      if src =? "" then None
      else if LocalContentExtractor.skip_small (get img "width")
                (get img "height")
      then None
      else normalized parsed src
  | None => None
  end.

Definition option_list {A} (o : option A) : list A :=
  match o with
  | Some a => [a]
  | None => []
  end.

(** The qualifying images of a document, in document order. *)
Definition qualifying_images (parsed : LocalContentExtractor.ParseResult)
  (doc : soup) : list string :=
  flat_map (fun img => option_list (qualifying_source parsed img))
    (find_all ["img"] doc).

(** ** Candidates of the popup oracle *)

(** Confidence strictly above 0.3 and a selector that is not empty. *)
Definition qualifies (element : value) : bool :=
  match Py.get element "confidence" (VNum 0),
        Py.get element "selector" VNone with
  | inr confidence, inr selector =>
      match gt_threshold confidence with
      | inr above => above && truthy selector
      | inl _ => false
      end
  | _, _ => false
  end.

(** A value that compares with a float. *)
Definition numeric (v : value) : bool :=
  match v with
  | VBool _ | VNum _ | VInf _ | VNaN => true
  | _ => false
  end.

(** A candidate of the asked shape: an object whose confidence, when
    there is one, is a number. *)
Definition well_typed (element : value) : bool :=
  match element with
  | VDict d =>
      match lookup "confidence" d with
      | Some c => numeric c
      | None => true
      end
  | _ => false
  end.

(** What the interaction engine is given for a candidate. *)
Definition target (element : value) : value * value :=
  (match Py.get element "selector" VNone with
   | inr v => v
   | inl _ => VNone
   end,
   match Py.get element "button_text" (VStr "") with
   | inr v => v
   | inl _ => VStr ""
   end).

Definition interaction (clicked : bool) (t : value * value) : event :=
  Interaction (fst t) (snd t) clicked.

(** How often the oracle was asked. *)
Definition queries (tr : list event) : nat :=
  length (filter (fun ev => match ev with Queried _ => true | _ => false end)
            tr).

(** How many interactions succeeded. *)
Definition clicks (tr : list event) : nat :=
  length (filter (fun ev => match ev with
                            | Interaction _ _ true => true
                            | _ => false
                            end) tr).

(** How many candidates went to the interaction engine. *)
Definition interactions (tr : list event) : nat :=
  length (filter (fun ev => match ev with
                            | Interaction _ _ _ => true
                            | _ => false
                            end) tr).

(** ** The interaction engine as a table of strategies *)

Import Eff.
Local Open Scope eff_scope.

(** [m] never raises. *)
Definition returns {S A} (m : M S A) : Prop :=
  forall s, exists s' a, m s = (s', inr a).

(** [m] adds no event. *)
Definition silent {E : Env} {A} (m : M (state E) A) : Prop :=
  forall s, trace (fst (m s)) = trace s.

(** The strategies in turn, stopping at the first success. *)
Fixpoint first_success {S} (table : list (M S bool)) : M S bool :=
  match table with
  | [] => ret false
  | strategy :: rest =>
      ok <- strategy ;; if ok then ret true else first_success rest
  end.

Definition click_strategies {E : Env} (selector button_text : value)
  : list (M (state E) bool) :=
  [ BrowserService.standard_click selector;
    BrowserService.text_click button_text;
    BrowserService.force_click selector;
    BrowserService.js_click selector;
    BrowserService.iframe_click selector ].

End Stated.

(* ===================================================================== *)
(** * A small world to run the model in *)
(* ===================================================================== *)

Module Scripted.
Import Py World.

(** The world is the number of clicks done so far.  A click on [Css sel]
    succeeds when [clickable sel] holds, no other call fails, the page has
    no element handles or frames to offer, and the oracle replies
    [replies n] after [n] clicks. *)
Definition env (replies : nat -> exn + value) (clickable : value -> bool)
  (html : string) : Env :=
  {| W := nat;
     ElementHandle := unit;
     Frame := unit;
     playwright_start := fun w => (w, inr tt);
     chromium_launch := fun _ w => (w, inr tt);
     browser_new_context := fun w => (w, inr tt);
     context_new_page := fun w => (w, inr tt);
     browser_new_page := fun w => (w, inr tt);
     page_set_default_timeout := fun _ w => (w, inr tt);
     page_goto := fun _ w => (w, inr tt);
     page_wait_for_timeout := fun _ w => (w, inr tt);
     page_content := fun w => (w, inr html);
     page_click := fun loc _ _ w =>
       match loc with
       | Css sel => if clickable sel then (S w, inr tt)
                    else (w, inl DriverError)
       | _ => (w, inl DriverError)
       end;
     page_query_selector := fun _ w => (w, inr None);
     element_evaluate_click := fun _ w => (w, inr tt);
     page_frames := fun w => (w, inr []);
     frame_query_selector := fun _ _ w => (w, inr None);
     element_click := fun _ _ w => (w, inr tt);
     page_close := fun w => (w, inr tt);
     browser_close := fun w => (w, inr tt);
     playwright_stop := fun w => (w, inr tt);
     chat_completion_json := fun _ w => (w, replies w) |}.

(** A world whose page is loaded. *)
Definition loaded {E : Env} (w : W E) : state E :=
  {| world := w; playwright := true; browser := true; page := true;
     trace := [] |}.

End Scripted.

(* ===================================================================== *)
(** * Sample documents *)
(* ===================================================================== *)

Module Samples.
Import Dom.

(** A page with nothing but a title element. *)
Definition title_only : soup :=
  [Tag "html" []
     [Tag "head" [] [Tag "title" [] [Text " Morning news "]];
      Tag "body" [] []]].

Definition photo_url (name : string) : string :=
  "https://example.com/" ++ name ++ ".png".

(** An image with an absolute source and no size attributes. *)
Definition photo (name : string) : node :=
  Tag "img" [("src", photo_url name)] [].

(** An image with an absolute source and the given size attributes. *)
Definition sized_photo (name width height : string) : node :=
  Tag "img" [("src", photo_url name); ("width", width); ("height", height)]
    [].

Definition fifteen : list string :=
  ["a"; "b"; "c"; "d"; "e"; "f"; "g"; "h"; "i"; "j"; "k"; "l"; "m"; "n";
   "o"].

(** Fifteen images in the body, none inside an unwanted element. *)
Definition gallery : soup :=
  [Tag "html" [] [Tag "body" [] (map photo fifteen)]].

(** Fifteen images, the first of them inside the page header. *)
Definition gallery_with_header : soup :=
  [Tag "html" []
     [Tag "body" []
        (Tag "header" [] [photo "a"] :: map photo (tl fifteen))]].

(** Four images: an absolute, a protocol-relative, a root-relative and a
    relative source. *)
Definition mixed_sources : soup :=
  [Tag "body" []
     [Tag "img" [("src", "http://cdn.example.com/a.png")] [];
      Tag "img" [("src", "//cdn.example.com/b.png")] [];
      Tag "img" [("data-src", "/static/c.png")] [];
      Tag "img" [("src", "img/d.png")] []]].

Definition example_com : LocalContentExtractor.ParseResult :=
  {| LocalContentExtractor.scheme := "https";
     LocalContentExtractor.netloc := "example.com" |}.

(** ** Replies of the oracle *)

Import Py.

(** A cookie banner with its accept button. *)
Definition banner : value :=
  VDict [("popups_found", VBool true);
         ("elements",
          VList [VDict [("type", VStr "button");
                        ("selector", VStr "#accept");
                        ("button_text", VStr "Accept All");
                        ("confidence", VNum (9 # 10))]])].

(** The same reply with the confidence given as a word. *)
Definition banner_worded_confidence : value :=
  VDict [("popups_found", VBool true);
         ("elements",
          VList [VDict [("type", VStr "button");
                        ("selector", VStr "#accept");
                        ("button_text", VStr "Accept All");
                        ("confidence", VStr "high")]])].

(** An article behind the banner: a title element, one paragraph and one
    image of 200 by 200. *)
Definition article : soup :=
  [Tag "html" []
     [Tag "head" [] [Tag "title" [] [Text "News"]];
      Tag "body" []
        [Tag "article" []
           [Tag "p" [] [Text "A paragraph that is long enough to count."];
            sized_photo "a" "200" "200"]]]].

(** The banner is there until the first click. *)
Definition banner_once (clicks_done : nat) : exn + value :=
  match clicks_done with
  | O => inr banner
  | _ => inr PopupDetector.no_popups
  end.

(** The world of [banner_once], every click succeeding. *)
Definition with_banner : World.Env :=
  Scripted.env banner_once (fun _ => true) "<html>".

(** A world whose oracle always sends [banner_worded_confidence]. *)
Definition with_worded_confidence : World.Env :=
  Scripted.env (fun _ => inr banner_worded_confidence)
    (fun _ => true) "<html>".


End Samples.

(* ===================================================================== *)
(** * config.py: the check of the API key *)
(* ===================================================================== *)

Module ConfigValidation.
Import Str Py.

(** [Settings.validate_api_key]: an empty or blank key is a [ValueError],
    any other key is returned stripped. *)
Definition validate_api_key (v : string) : exn + string :=
  if negb (truthy_str (Some v)) || negb (truthy_str (Some (strip v)))
  then inl ValueError
  else inr (strip v).

End ConfigValidation.

(* ===================================================================== *)
(** * services/content_extractor.py *)
(* ===================================================================== *)

Module ContentExtractor.
Import Py Eff.
Local Open Scope eff_scope.

(** The first 300000 characters. *)
Definition sample_limit : nat := Z.to_nat 300000.

Definition html_sample (html : string) : string :=
  if (sample_limit <? String.length html)%nat
  then substring 0 sample_limit html
  else html.

(** What [extract_content] returns when anything in its [try] raises. *)
Definition empty_fields : value :=
  VDict [("title", VStr ""); ("body", VStr ""); ("images", VList [])].

(** [v[:50]], as far as it can raise: strings and lists can be sliced,
    nothing else that [json.loads] returns can. *)
Definition slice (v : value) : exn + unit :=
  match v with
  | VStr _ | VList _ => inr tt
  | _ => inl TypeError
  end.

Section Client.
Context {W : Type}.

(** [chat.completions.create] on the prompt built from the HTML sample,
    followed by [json.loads] of the message; [inl] when either raises. *)
Variable chat_completion_json : string -> W -> W * (exn + value).

(** [extract_content]: the decoded reply, once its title has been sliced
    for the log line, or [empty_fields] when anything raised. *)
Definition extract_content (html url : string) : M W value :=
  catch
    (result <- chat_completion_json (html_sample html) ;;
     title <- lift (get result "title" (VStr "")) ;;
     lift (slice title) ;;
     ret result)
    (fun _ => ret empty_fields).

End Client.

End ContentExtractor.

(* ===================================================================== *)
(** * services/browser_service_simple.py *)
(* ===================================================================== *)

Module SimpleBrowserService.
Import Py Eff.
Local Open Scope eff_scope.

(** The service object ([client] set or [None], [current_html]) and the
    world its HTTP client acts on.  [click_element], which edits the HTML
    through a CSS selection, is left out. *)
Record state (W : Type) : Type :=
  { world : W; client : bool; current_html : string }.

Arguments world {W} _.
Arguments client {W} _.
Arguments current_html {W} _.

Section Service.
Context {W : Type}.

(** [client.get(url)], [raise_for_status()] and [response.text]. *)
Variable http_get : string -> W -> W * (exn + string).
(** [client.aclose()] *)
Variable aclose : W -> W * (exn + unit).

Definition call {A} (op : W -> W * (exn + A)) : M (state W) A :=
  fun s =>
    let (w, r) := op (world s) in
    ({| world := w; client := client s; current_html := current_html s |},
     r).

Definition set_client (b : bool) : M (state W) unit :=
  fun s =>
    ({| world := world s; client := b; current_html := current_html s |},
     inr tt).

Definition set_current_html (html : string) : M (state W) unit :=
  fun s =>
    ({| world := world s; client := client s; current_html := html |},
     inr tt).

Definition _init_client : M (state W) unit :=
  s <- get_store ;;
  if negb (client s) then set_client true else ret tt.

Definition load_page (url : string) : M (state W) string :=
  _init_client ;;
  catch
    (text <- call (http_get url) ;;
     set_current_html text ;;
     s <- get_store ;;
     ret (current_html s))
    (fun _ => raise RuntimeError).

Definition get_html : M (state W) string :=
  s <- get_store ;; ret (current_html s).

Definition close : M (state W) unit :=
  s <- get_store ;;
  if client s then call aclose ;; set_client false else ret tt.

End Service.

End SimpleBrowserService.

(* ===================================================================== *)
(** * services/browser_service_playwright.py *)
(* ===================================================================== *)

Module SyncBrowserService.
Import Py Eff World.
Local Open Scope eff_scope.

Section Service.
Context {E : Env}.

(** [_init_browser]: the page comes from the browser itself, it is
    assigned before its default time-out is set, and the time-out is given
    in milliseconds as it is. *)
Definition _init_browser (headless : bool) (timeout : Z)
  : M (state E) unit :=
  catch
    (BrowserService.call (playwright_start E) ;;
     BrowserService.set_playwright true ;;
     BrowserService.call (chromium_launch E headless) ;;
     BrowserService.set_browser true ;;
     BrowserService.call (browser_new_page E) ;;
     BrowserService.set_page true ;;
     BrowserService.call (page_set_default_timeout E timeout))
    (fun _ => raise RuntimeError).

Definition load_page (headless : bool) (timeout : Z) (url : string)
  : M (state E) string :=
  s <- get_store ;;
  (if negb (page s) then _init_browser headless timeout else ret tt) ;;
  BrowserService.call (page_goto E url) ;;
  BrowserService.call (page_wait_for_timeout E 2000) ;;
  BrowserService.call (page_content E).

(** [click_element]: one click inside one [try]; without a page the call
    on [None] is an [AttributeError], caught like any other. *)
Definition click_element (selector : value) : M (state E) bool :=
  catch
    (s <- get_store ;;
     (if page s then ret tt else raise AttributeError) ;;
     BrowserService.call (page_click E (Css selector) 5000 false) ;;
     BrowserService.call (page_wait_for_timeout E 1000) ;;
     ret true)
    (fun _ => ret false).

End Service.

End SyncBrowserService.

(* ===================================================================== *)
(** * More properties in plain words *)
(* ===================================================================== *)

Module Observed.
Import Str Py Eff Dom World.

(** How many calls [asyncio.sleep(seconds)] a trace holds.  A trace
    records the calls of [asyncio.sleep] only: the waits of the driver
    ([page.wait_for_timeout] in [load_page] and [click_element]) are
    calls to the world and leave no event. *)
Definition pauses (seconds : Z) (tr : list event) : nat :=
  length (filter (fun ev => match ev with
                            | Slept n => (n =? seconds)%Z
                            | _ => false
                            end) tr).

(** Every successful interaction is followed at once by
    [asyncio.sleep(5)], and [asyncio.sleep] is called nowhere else. *)
Fixpoint settled (tr : list event) : bool :=
  match tr with
  | [] => true
  | Interaction _ _ true :: rest =>
      match rest with
      | Slept n :: rest' => (n =? 5)%Z && settled rest'
      | _ => false
      end
  | Slept _ :: _ => false
  | _ :: rest => settled rest
  end.

(** The handles of the service are nested: a page only with a browser, a
    browser only with Playwright. *)
Definition nested {E : Env} (s : state E) : Prop :=
  (page s = true -> browser s = true)
  /\ (browser s = true -> playwright s = true).

(** Nothing is open. *)
Definition all_closed {E : Env} (s : state E) : Prop :=
  page s = false /\ browser s = false /\ playwright s = false.

(** [s'] has the flags of [s]. *)
Definition same_handles {E : Env} (s s' : state E) : Prop :=
  page s' = page s /\ browser s' = browser s
  /\ playwright s' = playwright s.

(** The driver gets as far as a page when [_init_browser] runs in the
    world [w]: Playwright starts, the browser is launched, the context is
    made and the page is made in it. *)
Definition page_made (E : Env) (headless : bool) (w : W E) : bool :=
  match playwright_start E w with
  | (w1, inr _) =>
      match chromium_launch E headless w1 with
      | (w2, inr _) =>
          match browser_new_context E w2 with
          | (w3, inr _) =>
              match context_new_page E w3 with
              | (_, inr _) => true
              | (_, inl _) => false
              end
          | (_, inl _) => false
          end
      | (_, inl _) => false
      end
  | (_, inl _) => false
  end.

(** The three closing calls of the driver never raise. *)
Definition closes_quietly (E : Env) : Prop :=
  (forall w, snd (page_close E w) = inr tt)
  /\ (forall w, snd (browser_close E w) = inr tt)
  /\ (forall w, snd (playwright_stop E w) = inr tt).

(** A reply of the asked shape: an object whose [elements], when there are
    any, is a list of well-typed candidates. *)
Definition well_shaped (reply : value) : bool :=
  match reply with
  | VDict d =>
      match lookup "elements" d with
      | None => true
      | Some (VList l) => forallb Stated.well_typed l
      | Some _ => false
      end
  | _ => false
  end.

(** Every reply the oracle can give is of the asked shape. *)
Definition oracle_well_shaped (E : Env) : Prop :=
  forall sample w reply,
    snd (chat_completion_json E sample w) = inr reply ->
    well_shaped reply = true.

(** An image that passes the size test and whose source starts with one
    slash: the one kind of source that needs [urlparse]. *)
Definition needs_base (img : node) : bool :=
  match Stated.source_of img with
  | Some src =>
      negb (src =? "")
      && negb (LocalContentExtractor.skip_small (Dom.get img "width")
                 (Dom.get img "height"))
      && negb (startswith src "//")
      && startswith src "/"
  | None => false
  end.

(** The stripped text of an element has more than 20 characters. *)
Definition long_text (element : node) : bool :=
  (20 <? String.length (get_text_strip element))%nat.

(** No whitespace at either end, no three newlines and no two spaces in a
    row. *)
Definition clean (text : string) : Prop :=
  strip text = text
  /\ runs_below nl 3 0 text = true
  /\ runs_below sp 2 0 text = true.

(** What the [except] clauses of the endpoint make of the body of its
    [try]. *)
Definition guarded {E : Env} (BeautifulSoup : string -> exn + Dom.soup)
  (urlparse : string -> exn + LocalContentExtractor.ParseResult)
  (settings : Config.Settings) (url : string)
  : M (state E) Models.ExtractResponse :=
  catch (Main.extract_body BeautifulSoup urlparse settings url)
    (fun e =>
       match e with
       | HTTPException _ => raise e
       | _ => raise (HTTPException 500)
       end).

(** [m] leaves the three handles as they are. *)
Definition steady {E : Env} {A} (m : M (state E) A) : Prop :=
  forall s, same_handles s (fst (m s)).

End Observed.

(* ===================================================================== *)
(** * A world where chosen calls fail *)
(* ===================================================================== *)

Module Faulty.
Import Py World.

Inductive call_name : Type :=
| Start | Launch | NewContext | NewPage | SetTimeout
| Goto | Wait | Content | Click
| PageClose | BrowserClose | Stop.

Definition answer {A} (fails : bool) (a : A) (w : nat) : nat * (exn + A) :=
  if fails then (w, inl DriverError) else (S w, inr a).

(** The world counts the driver calls that went through; a call named by
    [fails] raises, the page holds [html] and the oracle sends [reply]. *)
Definition env (fails : call_name -> bool) (reply : exn + value)
  (html : string) : Env :=
  {| W := nat;
     ElementHandle := unit;
     Frame := unit;
     playwright_start := answer (fails Start) tt;
     chromium_launch := fun _ => answer (fails Launch) tt;
     browser_new_context := answer (fails NewContext) tt;
     context_new_page := answer (fails NewPage) tt;
     browser_new_page := answer (fails NewPage) tt;
     page_set_default_timeout := fun _ => answer (fails SetTimeout) tt;
     page_goto := fun _ => answer (fails Goto) tt;
     page_wait_for_timeout := fun _ => answer (fails Wait) tt;
     page_content := answer (fails Content) html;
     page_click := fun _ _ _ => answer (fails Click) tt;
     page_query_selector := fun _ w => (w, inr None);
     element_evaluate_click := fun _ => answer (fails Click) tt;
     page_frames := fun w => (w, inr []);
     frame_query_selector := fun _ _ w => (w, inr None);
     element_click := fun _ _ => answer (fails Click) tt;
     page_close := answer (fails PageClose) tt;
     browser_close := answer (fails BrowserClose) tt;
     playwright_stop := answer (fails Stop) tt;
     chat_completion_json := fun _ w => (w, reply) |}.

Definition never (c : call_name) : bool := false.

Definition only (c0 : call_name) (c : call_name) : bool :=
  match c0, c with
  | Start, Start | Launch, Launch | NewContext, NewContext
  | NewPage, NewPage | SetTimeout, SetTimeout | Goto, Goto
  | Wait, Wait | Content, Content | Click, Click
  | PageClose, PageClose | BrowserClose, BrowserClose | Stop, Stop => true
  | _, _ => false
  end.

End Faulty.

(* ===================================================================== *)
(** * Cases to run *)
(* ===================================================================== *)

Module Cases.
Import Py Dom World.

(** A reply that reports no popup and lists a candidate all the same. *)
Definition denied_with_candidate : value :=
  VDict [("popups_found", VNum 0);
         ("elements", VList [VDict [("selector", VStr "#x");
                                    ("confidence", VNum 1)]])].

(** A world where nothing fails and the oracle sends
    [denied_with_candidate]. *)
Definition denying : Env :=
  Faulty.env Faulty.never (inr denied_with_candidate) "<html>".

(** A world where reading the page content fails and the oracle keeps
    sending the banner. *)
Definition unreadable : Env :=
  Faulty.env (Faulty.only Faulty.Content) (inr Samples.banner) "<html>".

(** A world where nothing fails and the oracle is out of reach. *)
Definition sound : Env :=
  Faulty.env Faulty.never (inl APIError) "<html>".

(** A world where closing the page fails. *)
Definition stuck_page : Env :=
  Faulty.env (Faulty.only Faulty.PageClose) (inl APIError) "<html>".

(** A world where the browser cannot be launched. *)
Definition no_browser : Env :=
  Faulty.env (Faulty.only Faulty.Launch) (inl APIError) "<html>".

(** A world where the page is made and its default time-out cannot be
    set. *)
Definition no_time_out : Env :=
  Faulty.env (Faulty.only Faulty.SetTimeout) (inl APIError) "<html>".

(** What [urlparse] makes of [ftp://example.com/page]. *)
Definition ftp_site : LocalContentExtractor.ParseResult :=
  {| LocalContentExtractor.scheme := "ftp";
     LocalContentExtractor.netloc := "example.com" |}.

(** A page whose only text is a short paragraph. *)
Definition short_page : soup :=
  [Tag "html" [] [Tag "body" [] [Tag "p" [] [Text "Too short."]]]].

(** A page with a title and an image whose source starts with a slash. *)
Definition rooted_image : soup :=
  [Tag "html" []
     [Tag "head" [] [Tag "title" [] [Text "News"]];
      Tag "body" [] [Tag "img" [("src", "/static/a.png")] []]]].

(** A paragraph inside a [div] inside an [article]. *)
Definition wrapped_paragraph : node :=
  Tag "article" []
    [Tag "div" []
       [Tag "p" [] [Text "A paragraph that is long enough to count."]]].

(** An HTTP client that serves one page and fails on every other URL. *)
Definition one_page (url : string) (w : nat) : nat * (exn + string) :=
  if (url =? "https://example.com/")%string
  then (S w, inr "<html>first</html>"%string)
  else (S w, inl DriverError).

(** The simple service after it has loaded that page. *)
Definition after_first_page : SimpleBrowserService.state nat :=
  {| SimpleBrowserService.world := 1%nat;
     SimpleBrowserService.client := true;
     SimpleBrowserService.current_html := "<html>first</html>" |}.

(** A world where only the element [#close] can be clicked. *)
Definition only_close : Env :=
  Scripted.env (fun _ => inl APIError)
    (fun selector =>
       match selector with
       | VStr s => (s =? "#close")%string
       | _ => false
       end) "<html>".

(** A candidate that cannot be clicked there, one of low confidence, one
    that can be clicked and one more. *)
Definition four_candidates : list value :=
  [VDict [("selector", VStr "#accept"); ("button_text", VStr "Accept");
          ("confidence", VNum (9 # 10))];
   VDict [("selector", VStr "#maybe"); ("confidence", VNum (2 # 10))];
   VDict [("selector", VStr "#close"); ("button_text", VStr "Close");
          ("confidence", VNum (8 # 10))];
   VDict [("selector", VStr "#later"); ("confidence", VNum 1)]].

(** The candidate of [Samples.banner]. *)
Definition accept_button : value :=
  VDict [("type", VStr "button");
         ("selector", VStr "#accept");
         ("button_text", VStr "Accept All");
         ("confidence", VNum (9 # 10))].

End Cases.

(* ===================================================================== *)
(** * The threshold and the float literal *)
(* ===================================================================== *)

Module PyFacts.
Import Py.
Local Open Scope Z_scope.

Lemma small_exponent m k :
  0 <= k <= 54 ->
  (m * 2 ^ 54 <= 5404319552844595 * 2 ^ k <-> m * 10 <= 3 * 2 ^ k).
Proof.
  intros Hk.
  assert (P : 2 ^ 54 = 2 ^ k * 2 ^ (54 - k)).
  { rewrite <- Z.pow_add_r by lia. f_equal. lia. }
  assert (Hp : 0 < 2 ^ k) by (apply Z.pow_pos_nonneg; lia).
  assert (Hr : 0 < 2 ^ (54 - k)) by (apply Z.pow_pos_nonneg; lia).
  set (p := 2 ^ k) in *. set (r := 2 ^ (54 - k)) in *.
  assert (C : p * r = 18014398509481984) by (rewrite <- P; reflexivity).
  rewrite P. split; intros H.
  - assert (H1 : m * r <= 5404319552844595) by nia.
    assert (H2 : (m * 10) * r <= (3 * p) * r) by nia.
    nia.
  - assert (H2 : (m * r) * 10 <= 54043195528445952) by nia.
    assert (H1 : m * r <= 5404319552844595) by lia.
    nia.
Qed.

Lemma large_exponent m k :
  m < 2 ^ 53 -> 54 < k ->
  m * 2 ^ 54 <= 5404319552844595 * 2 ^ k /\ m * 10 <= 3 * 2 ^ k.
Proof.
  intros Hm Hk.
  assert (P : 2 ^ k = 2 ^ 54 * 2 ^ (k - 54)).
  { rewrite <- Z.pow_add_r by lia. f_equal. lia. }
  assert (T : 2 <= 2 ^ (k - 54)).
  { change 2 with (2 ^ 1) at 1. apply Z.pow_le_mono_r; lia. }
  rewrite P. set (t := 2 ^ (k - 54)) in *.
  change (2 ^ 53) with 9007199254740992 in Hm.
  change (2 ^ 54) with 18014398509481984.
  split; nia.
Qed.

(** On an [int], comparing with 3/10 is comparing with the float. *)
Lemma threshold_on_ints (n : Z) :
  Qle_bool (inject_Z n) float_literal = Qle_bool (inject_Z n) threshold.
Proof.
  apply eq_iff_eq_true.
  unfold Qle_bool, float_literal, threshold. rewrite !Z.leb_le.
  cbn [Qnum Qden inject_Z]. lia.
Qed.

(** On a binary64 float, with its significand of 53 bits, likewise. *)
Lemma threshold_on_floats (m e : Z) :
  Z.abs m < 2 ^ 53 ->
  Qle_bool (binary64_value m e) float_literal
  = Qle_bool (binary64_value m e) threshold.
Proof.
  intros Hm. apply eq_iff_eq_true.
  unfold binary64_value, Qle_bool, float_literal, threshold.
  rewrite !Z.leb_le.
  destruct (0 <=? e) eqn:He; cbn [Qnum Qden inject_Z].
  - lia.
  - apply Z.leb_gt in He.
    assert (Hp : 0 < 2 ^ (- e)) by (apply Z.pow_pos_nonneg; lia).
    rewrite !Z2Pos.id by exact Hp.
    destruct (Z_le_gt_dec (- e) 54) as [Hk|Hk].
    + apply (small_exponent m (- e)). lia.
    + destruct (large_exponent m (- e)) as [H1 H2]; [lia|lia|].
      change (Z.pos 18014398509481984) with (2 ^ 54).
      split; intros _; assumption.
Qed.

End PyFacts.

(* ===================================================================== *)
(** * Lemmas on strings *)
(* ===================================================================== *)

Module StrFacts.
Import Str.

Lemma append_nil_r s : s ++ "" = s.
Proof. induction s as [|a s IH]; simpl; [reflexivity|now rewrite IH]. Qed.

Lemma append_assoc s t u : (s ++ t) ++ u = s ++ (t ++ u).
Proof. induction s as [|a s IH]; simpl; [reflexivity|now rewrite IH]. Qed.

Lemma replicate_app_cons n c s :
  replicate n c ++ String c s = String c (replicate n c ++ s).
Proof.
  induction n as [|n IH]; simpl; [reflexivity|]. now rewrite IH.
Qed.

Lemma runs_below_replicate c least run n s :
  runs_below c least run (replicate n c ++ s) = runs_below c least (run + n) s.
Proof.
  revert run. induction n as [|n IH]; intros run; simpl.
  - now rewrite Nat.add_0_r.
  - rewrite Ascii.eqb_refl, IH. f_equal. lia.
Qed.

(** A string whose runs are all short is left alone. *)
Lemma collapse_from_fixed c least keep s : forall run,
  runs_below c least run s = true ->
  collapse_from c least keep run s = replicate run c ++ s.
Proof.
  induction s as [|a s IH]; intros run H; simpl in *.
  - unfold flush. rewrite H. now rewrite append_nil_r.
  - destruct (Ascii.eqb a c) eqn:E.
    + apply Ascii.eqb_eq in E. subst a.
      rewrite (IH _ H). simpl. now rewrite replicate_app_cons.
    + apply andb_true_iff in H. destruct H as [H1 H2].
      unfold flush. rewrite H1, (IH _ H2). reflexivity.
Qed.

Lemma flush_replicate c least keep run :
  (0 < least)%nat -> (0 < keep < least)%nat ->
  exists j, flush c least keep run = replicate j c
            /\ (j < least)%nat /\ (j =? 0)%nat = (run =? 0)%nat.
Proof.
  intros Hl Hk. unfold flush. destruct (run <? least)%nat eqn:E.
  - exists run. apply Nat.ltb_lt in E. repeat split; trivial.
  - exists keep. apply Nat.ltb_ge in E. repeat split; [lia|].
    destruct keep; [lia|]. destruct run; [lia|]. reflexivity.
Qed.

(** The result of a collapse has only short runs. *)
Lemma runs_below_collapse c least keep s : forall run,
  (0 < keep < least)%nat ->
  runs_below c least 0 (collapse_from c least keep run s) = true.
Proof.
  induction s as [|a s IH]; intros run Hk; simpl.
  - destruct (flush_replicate c least keep run) as (j & -> & Hj & _);
      [lia|lia|].
    rewrite <- (append_nil_r (replicate j c)), runs_below_replicate.
    simpl. now apply Nat.ltb_lt.
  - destruct (Ascii.eqb a c) eqn:Eac; [now apply IH|].
    destruct (flush_replicate c least keep run) as (j & -> & Hj & _);
      [lia|lia|].
    rewrite runs_below_replicate. simpl. rewrite Eac, (IH 0%nat Hk).
    rewrite andb_true_r. now apply Nat.ltb_lt.
Qed.

Lemma runs_below_other c d least j t : forall r,
  Ascii.eqb d c = false -> (0 < least)%nat ->
  runs_below c least r (replicate j d ++ t) =
  if (j =? 0)%nat then runs_below c least r t
  else (r <? least)%nat && runs_below c least 0 t.
Proof.
  induction j as [|j IH]; intros r Hdc Hl; simpl; [reflexivity|].
  rewrite Hdc, IH by assumption.
  destruct (j =? 0)%nat; [reflexivity|].
  apply Nat.ltb_lt in Hl. now rewrite Hl.
Qed.

(** Collapsing the runs of [d] leaves the runs of another character [c]
    as short as they were. *)
Lemma runs_below_collapse_other c d least least' keep' s : forall run r,
  Ascii.eqb d c = false -> (0 < least)%nat -> (0 < keep' < least')%nat ->
  runs_below c least r (replicate run d ++ s) = true ->
  runs_below c least r (collapse_from d least' keep' run s) = true.
Proof.
  induction s as [|a s IH]; intros run r Hdc Hl Hk H; simpl.
  - destruct (flush_replicate d least' keep' run) as (j & -> & _ & Hj);
      [lia|lia|].
    rewrite <- (append_nil_r (replicate j d)).
    rewrite runs_below_other in H |- * by assumption.
    now rewrite Hj.
  - destruct (Ascii.eqb a d) eqn:Ead.
    + apply Ascii.eqb_eq in Ead. subst a.
      apply IH; trivial. rewrite replicate_app_cons in H. exact H.
    + destruct (flush_replicate d least' keep' run) as (j & -> & _ & Hj);
        [lia|lia|].
      rewrite runs_below_other in H |- * by assumption.
      rewrite Hj.
      assert (Step : forall r', runs_below c least r' (String a s) = true ->
                runs_below c least r'
                  (String a (collapse_from d least' keep' 0 s)) = true).
      { intros r' H'. simpl in *. destruct (Ascii.eqb a c).
        - apply IH; trivial.
        - apply andb_true_iff in H'. destruct H' as [H1 H2].
          rewrite H1. simpl. apply IH; trivial. }
      destruct (run =? 0)%nat.
      * now apply Step.
      * apply andb_true_iff in H. destruct H as [H1 H2].
        rewrite H1. simpl. now apply Step.
Qed.

Lemma runs_below_lt c least s : forall r,
  runs_below c least r s = true -> (r < least)%nat.
Proof.
  induction s as [|a s IH]; intros r H; simpl in H.
  - now apply Nat.ltb_lt.
  - destruct (Ascii.eqb a c).
    + apply IH in H. lia.
    + apply andb_true_iff in H. now apply Nat.ltb_lt.
Qed.

Lemma runs_below_mono c least s : forall r r',
  (r' <= r)%nat -> runs_below c least r s = true ->
  runs_below c least r' s = true.
Proof.
  induction s as [|a s IH]; intros r r' Hle H; simpl in *.
  - apply Nat.ltb_lt in H. apply Nat.ltb_lt. lia.
  - destruct (Ascii.eqb a c).
    + apply (IH (S r)); [lia|assumption].
    + apply andb_true_iff in H. destruct H as [H1 H2].
      rewrite H2, andb_true_r. apply Nat.ltb_lt in H1. apply Nat.ltb_lt. lia.
Qed.

(** Both parts of a string with short runs have short runs. *)
Lemma runs_below_app c least x y : forall r,
  runs_below c least r (x ++ y) = true ->
  runs_below c least r x = true /\ runs_below c least 0 y = true.
Proof.
  induction x as [|a x IH]; intros r H; simpl in *.
  - split.
    + apply Nat.ltb_lt. now apply runs_below_lt in H.
    + apply (runs_below_mono c least y r); [lia|assumption].
  - destruct (Ascii.eqb a c).
    + now apply IH.
    + apply andb_true_iff in H. destruct H as [H1 H2].
      rewrite H1. simpl. now apply IH.
Qed.

Lemma lstrip_suffix s : exists p, s = p ++ lstrip s.
Proof.
  induction s as [|a s [p IH]]; simpl.
  - now exists "".
  - destruct (isspace a).
    + exists (String a p). simpl. now rewrite <- IH.
    + now exists "".
Qed.

Lemma rstrip_prefix s : exists q, s = rstrip s ++ q.
Proof.
  induction s as [|a s [q IH]]; simpl.
  - now exists "".
  - destruct (rstrip s) as [|b r] eqn:Er.
    + destruct (isspace a).
      * now exists (String a s).
      * exists q. simpl. now rewrite IH at 1.
    + exists q. simpl. now rewrite IH at 1.
Qed.

Lemma runs_below_strip c least s :
  runs_below c least 0 s = true -> runs_below c least 0 (strip s) = true.
Proof.
  intros H. unfold strip.
  destruct (lstrip_suffix s) as [p Hp]. rewrite Hp in H.
  apply runs_below_app in H. destruct H as [_ H].
  destruct (rstrip_prefix (lstrip s)) as [q Hq]. rewrite Hq in H.
  apply runs_below_app in H. now destruct H as [H _].
Qed.

Lemma rstrip_idem s : rstrip (rstrip s) = rstrip s.
Proof.
  induction s as [|a s IH]; simpl; [reflexivity|].
  destruct (rstrip s) as [|b r] eqn:Er.
  - destruct (isspace a) eqn:Ea; simpl; [reflexivity|]. now rewrite Ea.
  - simpl in *. now rewrite IH.
Qed.

(** A string that starts with no whitespace still does so after
    [rstrip]. *)
Lemma lstrip_rstrip s : lstrip s = s -> lstrip (rstrip s) = rstrip s.
Proof.
  destruct s as [|a s]; simpl; [reflexivity|].
  destruct (isspace a) eqn:Ea.
  - intros H. exfalso.
    destruct (lstrip_suffix s) as [p Hp]. rewrite H in Hp.
    apply (f_equal String.length) in Hp.
    assert (L : forall x y, String.length (x ++ y)
                            = (String.length x + String.length y)%nat).
    { clear. induction x; intros; simpl; [reflexivity|now rewrite IHx]. }
    rewrite L in Hp. simpl in Hp. lia.
  - intros _. destruct (rstrip s); simpl; now rewrite Ea.
Qed.

Lemma lstrip_idem s : lstrip (lstrip s) = lstrip s.
Proof.
  induction s as [|a s IH]; simpl; [reflexivity|].
  destruct (isspace a) eqn:Ea; [assumption|]. simpl. now rewrite Ea.
Qed.

Lemma strip_idem s : strip (strip s) = strip s.
Proof.
  unfold strip. rewrite lstrip_rstrip by apply lstrip_idem.
  apply rstrip_idem.
Qed.

End StrFacts.

(* ===================================================================== *)
(** * The content extractor *)
(* ===================================================================== *)

Module ExtractorFacts.
Import Str StrFacts Py Eff Dom LocalContentExtractor Stated.

Example clean_up_example :
  clean_up ("  a" ++ String nl (String nl (String nl (String nl "b    c  "))))
  = "a" ++ String nl (String nl "b c").
Proof. reflexivity. Qed.

(** C8.  The clean-up of the body text (three or more newlines become two,
    two or more spaces become one, the ends are stripped) is idempotent:
    cleaning up a cleaned-up text changes nothing. *)
Theorem clean_up_idempotent (body : string) :
  clean_up (clean_up body) = clean_up body.
Proof.
  unfold clean_up, collapse.
  set (a := collapse_from nl 3 2 0 body).
  set (b := collapse_from sp 2 1 0 a).
  assert (Ha : runs_below nl 3 0 a = true)
    by (apply runs_below_collapse; lia).
  assert (Hb_nl : runs_below nl 3 0 b = true)
    by (apply runs_below_collapse_other; trivial; lia).
  assert (Hb_sp : runs_below sp 2 0 b = true)
    by (apply runs_below_collapse; lia).
  apply runs_below_strip in Hb_nl, Hb_sp.
  rewrite (collapse_from_fixed nl 3 2 _ 0 Hb_nl). simpl.
  rewrite (collapse_from_fixed sp 2 1 _ 0 Hb_sp). simpl.
  apply strip_idem.
Qed.

(** ** Title *)

Lemma first_title_non_empty l : first_title l <> "".
Proof.
  induction l as [|strategy rest IH]; simpl; [discriminate|].
  destruct (strategy tt) as [e|[t|]]; simpl; trivial.
  destruct (t =? "") eqn:Et; simpl; trivial.
  now apply String.eqb_neq in Et.
Qed.

Lemma filter_nil_and {A} (p q : A -> bool) l :
  filter p l = [] -> filter (fun x => p x && q x) l = [].
Proof.
  induction l as [|x l IH]; simpl; [reflexivity|].
  destruct (p x); simpl; [discriminate|assumption].
Qed.

Lemma find_with_no_meta key val doc :
  find_all ["meta"] doc = [] -> find_with "meta" key val doc = None.
Proof.
  intros H. unfold find_with, find_all in *.
  now rewrite (filter_nil_and _ _ _ H).
Qed.

(** C5.  The title is the first non-empty one of: the text of the first
    [h1], the text of the [title] element, the content of the Open Graph
    title [meta], the content of the [meta] named [title]; and [Untitled]
    when there is none.  In particular a page with no [h1] and no [meta]
    whose [title] element has text gets that text. *)
Theorem title_resolution (doc : soup) :
  _extract_title doc
  = (doc, inr (first_non_empty (title_candidates doc) "Untitled"))
  /\ (forall t,
        find "h1" doc = None -> find_all ["meta"] doc = [] ->
        find "title" doc = Some t -> get_text_strip t <> "" ->
        _extract_title doc = (doc, inr (get_text_strip t))).
Proof.
  assert (General : _extract_title doc
            = (doc, inr (first_non_empty (title_candidates doc) "Untitled"))).
  { unfold _extract_title, bind, get_store, ret. do 2 f_equal.
    unfold strategies, title_candidates, meta_content. simpl.
    destruct (find "h1" doc) as [h|]; simpl;
      [destruct (get_text_strip h =? ""); simpl; [|reflexivity]|];
      (destruct (find "title" doc) as [t|]; simpl;
       [destruct (get_text_strip t =? ""); simpl; [|reflexivity]|]);
      (destruct (find_with "meta" "property" "og:title" doc) as [m|]; simpl;
       [destruct (get m "content") as [c|]; simpl;
        [destruct (c =? ""); simpl; [|reflexivity]|]|]);
      (destruct (find_with "meta" "name" "title" doc) as [m'|]; simpl;
       [destruct (get m' "content") as [c'|]; simpl;
        [destruct (c' =? ""); simpl|]|]);
      reflexivity. }
  split; [exact General|].
  intros t Hh Hm Ht Hne. rewrite General. do 2 f_equal.
  unfold title_candidates, meta_content.
  rewrite Hh, Ht, !(find_with_no_meta _ _ _ Hm). simpl.
  apply String.eqb_neq in Hne. now rewrite Hne.
Qed.

Lemma title_resolution_witness :
  _extract_title Samples.title_only
  = (Samples.title_only, inr "Morning news").
Proof.
  apply (proj2 (title_resolution Samples.title_only)
           (Tag "title" [] [Text " Morning news "]));
    try reflexivity.
  vm_compute. discriminate.
Defined.

(** ** The three steps on one soup *)

Lemma run_extract_title doc :
  _extract_title doc = (doc, inr (first_title (strategies doc))).
Proof. reflexivity. Qed.

(** The body step always returns, and leaves the pruned soup behind. *)
Lemma run_extract_body doc :
  exists body, _extract_body doc = (decompose_all unwanted doc, inr body).
Proof.
  unfold _extract_body, bind, get_store, put_store, ret.
  destruct (main_content (decompose_all unwanted doc)); eauto.
Qed.

Lemma run_extract_steps u url doc :
  exists body,
    snd (extract_steps u url doc)
    = match images_loop u url (find_all ["img"] (decompose_all unwanted doc))
              [] with
      | inr images =>
          inr {| title := first_title (strategies doc); body := body;
                 images := firstn 10 images |}
      | inl e => inl e
      end.
Proof.
  destruct (run_extract_body doc) as [body Hb]. exists body.
  unfold extract_steps, bind. rewrite run_extract_title, Hb.
  unfold _extract_images, bind, get_store, lift, ret.
  destruct (images_loop u url _ []); reflexivity.
Qed.

(** C10.  When [extract_content] goes through without an exception the
    title it returns is not empty; so the test for "no article content",
    which wants title and body both empty, can only hold after the
    extractor has caught an exception. *)
Theorem title_never_empty (BeautifulSoup : string -> exn + soup)
  (urlparse : string -> exn + ParseResult) (html url : string) :
  (forall c, extract_content_try BeautifulSoup urlparse html url = inr c ->
             title c <> "")
  /\ (Main.no_article (extract_content BeautifulSoup urlparse html url) = true
      -> exists e, extract_content_try BeautifulSoup urlparse html url
                   = inl e).
Proof.
  assert (Ok : forall c,
             extract_content_try BeautifulSoup urlparse html url = inr c ->
             title c <> "").
  { intros c. unfold extract_content_try.
    destruct (BeautifulSoup html) as [e|doc]; [discriminate|].
    destruct (run_extract_steps urlparse url doc) as [body ->].
    destruct (images_loop _ _ _ _); [discriminate|].
    intros [= <-]. exact (first_title_non_empty (strategies doc)). }
  split; [exact Ok|].
  unfold extract_content.
  destruct (extract_content_try BeautifulSoup urlparse html url) as [e|c] eqn:Hc.
  - eauto.
  - intros H. exfalso. apply (Ok c eq_refl).
    unfold Main.no_article in H. apply andb_true_iff in H.
    destruct H as [H _]. simpl in H. apply negb_true_iff in H.
    apply negb_false_iff in H. now apply String.eqb_eq in H.
Qed.

Lemma title_never_empty_witness :
  title (extract_content (fun _ => inr Samples.title_only)
           (fun _ => inr Samples.example_com) "" "https://example.com/")
  <> ""
  /\ exists e, extract_content_try (fun _ => inl ValueError)
                 (fun _ => inr Samples.example_com) ""
                 "https://example.com/" = inl e.
Proof.
  split.
  - apply (proj1 (title_never_empty (fun _ => inr Samples.title_only)
                    (fun _ => inr Samples.example_com) ""
                    "https://example.com/")).
    reflexivity.
  - apply (proj2 (title_never_empty (fun _ => inl ValueError)
                    (fun _ => inr Samples.example_com) ""
                    "https://example.com/")).
    reflexivity.
Defined.

(** ** Images *)

Lemma startswith_app p rest : startswith (p ++ rest) p = true.
Proof.
  unfold startswith. induction p as [|a p IH]; simpl.
  - destruct rest; reflexivity.
  - destruct (ascii_dec a a); [exact IH|congruence].
Qed.

Example mixed_sources_images :
  images (extract_content (fun _ => inr Samples.mixed_sources)
            (fun _ => inr Samples.example_com) ""
            "https://example.com/news")
  = ["http://cdn.example.com/a.png"; "https://cdn.example.com/b.png";
     "https://example.com/static/c.png"].
Proof. reflexivity. Qed.

(** The loop appends, in order, what each image contributes. *)
Lemma images_loop_qualifying (urlparse : string -> exn + ParseResult) url
  parsed :
  urlparse url = inr parsed ->
  forall imgs acc,
    images_loop urlparse url imgs acc
    = inr (acc ++ flat_map
                    (fun img => option_list (qualifying_source parsed img))
                    imgs)%list.
Proof.
  intros Hu. induction imgs as [|img rest IH]; intros acc; simpl.
  - now rewrite app_nil_r.
  - unfold qualifying_source, source_of, or_else, truthy_str, normalized.
    destruct (get img "src") as [s|];
      [destruct (s =? "") eqn:Es; simpl|].
    2:{ rewrite Es. simpl.
        destruct (skip_small _ _); [apply IH|].
        destruct (startswith s "//"); [rewrite IH, <- app_assoc; reflexivity|].
        destruct (startswith s "/");
          [rewrite Hu, IH, <- app_assoc; reflexivity|].
        destruct (startswith s "http"); simpl;
          [rewrite IH, <- app_assoc; reflexivity|apply IH]. }
    all: destruct (get img "data-src") as [t|]; [|apply IH].
    all: destruct (t =? ""); simpl; [apply IH|].
    all: destruct (skip_small _ _); [apply IH|].
    all: destruct (startswith t "//");
      [rewrite IH, <- app_assoc; reflexivity|].
    all: destruct (startswith t "/");
      [rewrite Hu, IH, <- app_assoc; reflexivity|].
    all: destruct (startswith t "http"); simpl;
      [rewrite IH, <- app_assoc; reflexivity|apply IH].
Qed.

(** The schemes the request model accepts start with [http]. *)
Lemma valid_scheme_http (scheme : string) :
  Models.validate_url_scheme scheme = inr scheme ->
  startswith scheme "http" = true.
Proof.
  unfold Models.validate_url_scheme. simpl.
  destruct (scheme =? "http") eqn:E1.
  - intros _. apply String.eqb_eq in E1. now rewrite E1.
  - destruct (scheme =? "https") eqn:E2; [|discriminate].
    intros _. apply String.eqb_eq in E2. now rewrite E2.
Qed.

Lemma startswith_http_app (s rest : string) :
  startswith s "http" = true -> startswith (s ++ rest) "http" = true.
Proof.
  unfold startswith. intros H.
  repeat (destruct s as [|? s]; simpl in H; [discriminate|];
          match type of H with
          | (if ?d then _ else _) = true =>
              destruct d as [<-|]; [|discriminate]
          end).
  simpl. destruct (s ++ rest); reflexivity.
Qed.

(** Where the strings of the loop come from. *)
Lemma images_loop_sources (urlparse : string -> exn + ParseResult) url :
  forall imgs acc l,
    images_loop urlparse url imgs acc = inr l ->
    forall out, In out l ->
      In out acc
      \/ exists img src,
           In img imgs
           /\ or_else (get img "src") (get img "data-src") = Some src
           /\ src <> ""
           /\ skip_small (get img "width") (get img "height") = false
           /\ made_absolute urlparse url src out.
Proof.
  induction imgs as [|img rest IH]; intros acc l; simpl.
  - intros [= <-] out Hin. now left.
  - assert (Later : forall acc',
               images_loop urlparse url rest acc' = inr l ->
               (forall out, In out acc' ->
                  In out acc
                  \/ exists img' src,
                       (img = img' \/ In img' rest)
                       /\ or_else (get img' "src") (get img' "data-src")
                          = Some src
                       /\ src <> ""
                       /\ skip_small (get img' "width") (get img' "height")
                          = false
                       /\ made_absolute urlparse url src out) ->
               forall out, In out l ->
                 In out acc
                 \/ exists img' src,
                      (img = img' \/ In img' rest)
                      /\ or_else (get img' "src") (get img' "data-src")
                         = Some src
                      /\ src <> ""
                      /\ skip_small (get img' "width") (get img' "height")
                         = false
                      /\ made_absolute urlparse url src out).
    { intros acc' Hl Hacc out Hin.
      destruct (IH acc' l Hl out Hin)
        as [Hin'|(img' & src & Hi & Hs & Hn & Hk & Hm)].
      - now apply Hacc.
      - right. exists img', src. repeat split; auto. }
    assert (Same : forall out, In out acc ->
               In out acc
               \/ exists img' src,
                    (img = img' \/ In img' rest)
                    /\ or_else (get img' "src") (get img' "data-src")
                       = Some src
                    /\ src <> ""
                    /\ skip_small (get img' "width") (get img' "height")
                       = false
                    /\ made_absolute urlparse url src out)
      by (intros out Hin; now left).
    destruct (or_else (get img "src") (get img "data-src")) as [src|] eqn:Es;
      [|intros Hl; now apply (Later acc)].
    destruct (src =? "") eqn:En; cbn [negb];
      [intros Hl; now apply (Later acc)|].
    apply String.eqb_neq in En.
    destruct (skip_small _ _) eqn:Ek; [intros Hl; now apply (Later acc)|].
    assert (New : forall out0,
               made_absolute urlparse url src out0 ->
               forall out, In out (acc ++ [out0]) ->
                 In out acc
                 \/ exists img' src0,
                      (img = img' \/ In img' rest)
                      /\ or_else (get img' "src") (get img' "data-src")
                         = Some src0
                      /\ src0 <> ""
                      /\ skip_small (get img' "width") (get img' "height")
                         = false
                      /\ made_absolute urlparse url src0 out).
    { intros out0 Hm out Hin. apply in_app_or in Hin.
      destruct Hin as [Hin|[<-|[]]]; [now left|].
      right. exists img, src. repeat split; auto. }
    destruct (startswith src "//") eqn:E2.
    { intros Hl. apply (Later _ Hl). apply New. left. now split. }
    destruct (startswith src "/") eqn:E1.
    { destruct (urlparse url) as [e|parsed] eqn:Ep; [discriminate|].
      intros Hl. apply (Later _ Hl). apply New. right. left.
      repeat split; trivial. now exists parsed. }
    destruct (startswith src "http") eqn:Eh; cbn [negb];
      [|intros Hl; now apply (Later acc)].
    intros Hl. apply (Later _ Hl). apply New. right. right.
    now repeat split.
Qed.

Lemma made_absolute_http (urlparse : string -> exn + ParseResult)
  url src out :
  (forall parsed, urlparse url = inr parsed ->
     startswith (scheme parsed) "http" = true) ->
  made_absolute urlparse url src out ->
  startswith out "http" = true.
Proof.
  intros Hu [(_ & ->)|[(_ & _ & parsed & Hp & ->)|(_ & Hh & ->)]].
  - exact (startswith_app "http" ("s:" ++ src)).
  - apply startswith_http_app. now apply Hu.
  - exact Hh.
Qed.

Lemma In_firstn {A} n (l : list A) x : In x (firstn n l) -> In x l.
Proof.
  intros H. rewrite <- (firstn_skipn n l). apply in_or_app. now left.
Qed.

(** C9, as the code has it.  Every string in the image list of
    [extract_content] is the source of an image that the body step left
    in the document ([src] or, without it, [data-src]; not empty, the
    image not skipped for its size), made absolute: a source starting with
    [//] gets [https:] in front, one starting with [/] gets the scheme and
    the host of the page URL and [://] between them, and any other source
    is taken as it is when it starts with [http] and left out when it does
    not.  For a document and a page URL that parse, the list is the first
    ten of the strings so obtained, in document order.  Every string of
    the list starts with [http] when the scheme of the page URL does, as
    [http] and [https] do, the two schemes the request model accepts. *)
Theorem images_start_with_http (BeautifulSoup : string -> exn + soup)
  (urlparse : string -> exn + ParseResult) (html url : string) :
  let returned := images (extract_content BeautifulSoup urlparse html url) in
  (forall out, In out returned ->
     exists doc img src,
       BeautifulSoup html = inr doc
       /\ In img (find_all ["img"] (decompose_all unwanted doc))
       /\ or_else (get img "src") (get img "data-src") = Some src
       /\ src <> ""
       /\ skip_small (get img "width") (get img "height") = false
       /\ made_absolute urlparse url src out)
  /\ (forall doc parsed,
        BeautifulSoup html = inr doc -> urlparse url = inr parsed ->
        returned
        = firstn 10 (qualifying_images parsed (decompose_all unwanted doc)))
  /\ ((forall parsed, urlparse url = inr parsed ->
         startswith (scheme parsed) "http" = true) ->
      Forall (fun src => startswith src "http" = true) returned).
Proof.
  intros returned.
  assert (From : forall out, In out returned ->
             exists doc img src,
               BeautifulSoup html = inr doc
               /\ In img (find_all ["img"] (decompose_all unwanted doc))
               /\ or_else (get img "src") (get img "data-src") = Some src
               /\ src <> ""
               /\ skip_small (get img "width") (get img "height") = false
               /\ made_absolute urlparse url src out).
  { unfold returned, extract_content, extract_content_try.
    destruct (BeautifulSoup html) as [e|doc]; [intros out []|].
    destruct (run_extract_steps urlparse url doc) as [body ->].
    destruct (images_loop _ _ _ _) as [e|l] eqn:Hl; [intros out []|].
    cbn [images]. intros out Hin. apply In_firstn in Hin.
    destruct (images_loop_sources urlparse url _ _ _ Hl out Hin)
      as [[]|(img & src & Hi & Hs & Hn & Hk & Hm)].
    exists doc, img, src. repeat split; assumption. }
  split; [exact From|]. split.
  - intros doc parsed Hb Hu.
    unfold returned, extract_content, extract_content_try. rewrite Hb.
    destruct (run_extract_steps urlparse url doc) as [body ->].
    rewrite (images_loop_qualifying urlparse url parsed Hu). reflexivity.
  - intros Hu. apply Forall_forall. intros out Hin.
    destruct (From out Hin) as (doc & img & src & _ & _ & _ & _ & _ & Hm).
    exact (made_absolute_http urlparse url src out Hu Hm).
Qed.

Lemma images_start_with_http_witness :
  Forall (fun src => startswith src "http" = true)
    (images (extract_content (fun _ => inr Samples.mixed_sources)
               (fun _ => inr Samples.example_com) ""
               "https://example.com/news")).
Proof.
  apply (proj2 (proj2 (images_start_with_http
                         (fun _ => inr Samples.mixed_sources)
                         (fun _ => inr Samples.example_com) ""
                         "https://example.com/news"))).
  intros parsed [= <-]. reflexivity.
Defined.

(** C9, as stated, fails: for the page URL [ftp://example.com/page] the
    image with the source [/static/a.png] is returned with the scheme
    [ftp] in front. *)
Lemma images_start_with_http_counterexample :
  images (extract_content (fun _ => inr Cases.rooted_image)
            (fun _ => inr Cases.ftp_site) ""
            "ftp://example.com/page")
  = ["ftp://example.com/static/a.png"]
  /\ startswith "ftp://example.com/static/a.png" "http" = false
  /\ ~ Forall (fun src => startswith src "http" = true)
        (images (extract_content (fun _ => inr Cases.rooted_image)
                   (fun _ => inr Cases.ftp_site) ""
                   "ftp://example.com/page")).
Proof.
  split; [reflexivity|]. split; [reflexivity|].
  intros H. inversion H as [|x l Hx Hl]. discriminate Hx.
Qed.

(** C7, as the code has it.  The image list of [extract_content] is the
    first ten qualifying images, in document order, of the document as the
    body step left it: without the script, style, nav, header, footer,
    aside and iframe elements and the images inside them.  It never has
    more than ten entries, and has ten when ten or more images qualify. *)
Theorem image_cap (BeautifulSoup : string -> exn + soup)
  (urlparse : string -> exn + ParseResult) (html url : string)
  (doc : soup) (parsed : ParseResult) :
  BeautifulSoup html = inr doc ->
  urlparse url = inr parsed ->
  let returned := images (extract_content BeautifulSoup urlparse html url) in
  let remaining := qualifying_images parsed (decompose_all unwanted doc) in
  returned = firstn 10 remaining
  /\ (length returned <= 10)%nat
  /\ ((10 <= length remaining)%nat -> length returned = 10%nat).
Proof.
  intros Hb Hu returned remaining.
  assert (Eq : returned = firstn 10 remaining).
  { unfold returned, remaining, extract_content, extract_content_try.
    rewrite Hb.
    destruct (run_extract_steps urlparse url doc) as [body ->].
    rewrite (images_loop_qualifying urlparse url parsed Hu). reflexivity. }
  rewrite Eq. repeat split.
  - apply firstn_le_length.
  - intros H. rewrite length_firstn. lia.
Qed.

Lemma image_cap_witness :
  images (extract_content (fun _ => inr Samples.gallery)
            (fun _ => inr Samples.example_com) "" "https://example.com/")
  = map Samples.photo_url
      ["a"; "b"; "c"; "d"; "e"; "f"; "g"; "h"; "i"; "j"].
Proof.
  exact (proj1 (image_cap (fun _ => inr Samples.gallery)
                  (fun _ => inr Samples.example_com) ""
                  "https://example.com/" Samples.gallery
                  Samples.example_com eq_refl eq_refl)).
Defined.

(** C7, as stated, fails: all fifteen images of [gallery_with_header]
    qualify, the first of them stands in the page header, and the list
    returned starts with the second. *)
Lemma image_cap_counterexample :
  qualifying_images Samples.example_com Samples.gallery_with_header
  = map Samples.photo_url Samples.fifteen
  /\ images (extract_content (fun _ => inr Samples.gallery_with_header)
               (fun _ => inr Samples.example_com) ""
               "https://example.com/")
     = map Samples.photo_url
         ["b"; "c"; "d"; "e"; "f"; "g"; "h"; "i"; "j"; "k"]
  /\ images (extract_content (fun _ => inr Samples.gallery_with_header)
               (fun _ => inr Samples.example_com) ""
               "https://example.com/")
     <> firstn 10 (qualifying_images Samples.example_com
                     Samples.gallery_with_header).
Proof.
  repeat split; try reflexivity.
  vm_compute. discriminate.
Qed.

(** ** The size filter *)

Example py_int_examples :
  py_int "50" = Some 50%Z /\ py_int " 200 " = Some 200%Z
  /\ py_int "-5" = Some (-5)%Z /\ py_int "+7" = Some 7%Z
  /\ py_int "1_000" = Some 1000%Z /\ py_int "007" = Some 7%Z
  /\ py_int "50px" = None /\ py_int "abc" = None /\ py_int "12.5" = None
  /\ py_int "5_" = None /\ py_int "_5" = None /\ py_int "5__0" = None
  /\ py_int "+ 5" = None /\ py_int " " = None.
Proof. repeat split; reflexivity. Qed.

(** [int] does not strip the separators U+001C..U+001F that [str.strip]
    removes, and it does strip the no-break space. *)
Example py_int_whitespace :
  py_int (String (ascii_of_nat 28) "50") = None
  /\ strip (String (ascii_of_nat 28) "50") = "50"
  /\ py_int (String (ascii_of_nat 160) "50") = Some 50%Z
  /\ py_int (String (ascii_of_nat 133) "50" ++ String (ascii_of_nat 9) "")
     = Some 50%Z.
Proof. repeat split; reflexivity. Qed.

(** A number of more than 4300 digits is refused, leading zeros and
    digits between underscores counted. *)
Example py_int_digit_limit :
  py_int (replicate 4301 "1") = None
  /\ py_int (replicate 4301 "0") = None
  /\ py_int ("-" ++ replicate 4300 "0" ++ "_1") = None
  /\ py_int (replicate 4300 "0") = Some 0%Z
  /\ py_int ("+" ++ replicate 4299 "0" ++ "_7") = Some 7%Z.
Proof. repeat split; vm_compute; reflexivity. Qed.

Lemma starts_with_http_inv src :
  startswith src "http" = true -> exists rest, src = "http" ++ rest.
Proof.
  unfold startswith. intros H.
  repeat (destruct src as [|? src]; simpl in H; [discriminate|];
          match type of H with
          | (if ?d then _ else _) = true =>
              destruct d as [<-|]; [|discriminate]
          end).
  now exists src.
Qed.

(** C6, as the code has it.  An image is skipped for its size exactly when
    its width and height attributes are both present and not empty, the
    width reads as an integer, and either that integer is below 100 or the
    height reads as an integer below 100 as well.  An image with an
    absolute source is kept exactly when it is not skipped for its size;
    so the one with width 50 and height 50 is left out and the one with
    width 200 and height 150 is kept. *)
Theorem size_filter :
  (forall width height,
     skip_small width height = true <->
     exists w h wv,
       width = Some w /\ height = Some h /\ w <> "" /\ h <> ""
       /\ py_int w = Some wv
       /\ ((wv < 100)%Z
           \/ exists hv, py_int h = Some hv /\ (hv < 100)%Z))
  /\ (forall (urlparse : string -> exn + ParseResult) url img src,
        get img "src" = Some src -> startswith src "http" = true ->
        images_loop urlparse url [img] []
        = inr (if skip_small (get img "width") (get img "height")
               then [] else [src]))
  /\ skip_small (Some "50") (Some "50") = true
  /\ skip_small (Some "200") (Some "150") = false.
Proof.
  split; [|split; [|split; reflexivity]].
  - intros width height. unfold skip_small, small_dimensions, truthy_str.
    split.
    + destruct width as [w|], height as [h|]; try discriminate.
      destruct (w =? "") eqn:Ew; simpl; [discriminate|].
      destruct (h =? "") eqn:Eh; simpl; [discriminate|].
      apply String.eqb_neq in Ew, Eh.
      destruct (py_int w) as [wv|] eqn:Pw; [|discriminate].
      destruct (wv <? 100)%Z eqn:Lw.
      * intros _. exists w, h, wv. repeat split; trivial.
        left. now apply Z.ltb_lt.
      * destruct (py_int h) as [hv|] eqn:Ph; [|discriminate].
        intros Lh. exists w, h, wv. repeat split; trivial.
        right. exists hv. split; [assumption|now apply Z.ltb_lt].
    + intros (w & h & wv & -> & -> & Hw & Hh & Pw & Small).
      apply String.eqb_neq in Hw, Hh. rewrite Hw, Hh, Pw. simpl.
      destruct (wv <? 100)%Z eqn:Lw; [reflexivity|].
      destruct Small as [Lt|(hv & -> & Lt)].
      * apply Z.ltb_ge in Lw. lia.
      * now apply Z.ltb_lt.
  - intros urlparse url img src Hsrc Hhttp.
    destruct (starts_with_http_inv src Hhttp) as [rest ->].
    simpl. rewrite Hsrc. simpl.
    destruct (skip_small _ _); [reflexivity|].
    simpl. destruct rest; reflexivity.
Qed.

Lemma size_filter_witness :
  images_loop (fun _ => inr Samples.example_com) "https://example.com/"
    [Samples.sized_photo "b" "200" "150"] []
  = inr [Samples.photo_url "b"].
Proof.
  exact (proj1 (proj2 size_filter) (fun _ => inr Samples.example_com)
           "https://example.com/" (Samples.sized_photo "b" "200" "150")
           (Samples.photo_url "b") eq_refl eq_refl).
Defined.

(** C6, as stated, fails: the image below is skipped for its size although
    its height does not read as an integer. *)
Lemma size_filter_counterexample :
  py_int "50" = Some 50%Z /\ py_int "abc" = None
  /\ skip_small (Some "50") (Some "abc") = true
  /\ images (extract_content
               (fun _ => inr [Samples.sized_photo "a" "50" "abc"])
               (fun _ => inr Samples.example_com) ""
               "https://example.com/") = [].
Proof. repeat split; reflexivity. Qed.

End ExtractorFacts.

(* ===================================================================== *)
(** * Computations that always return, computations that log nothing *)
(* ===================================================================== *)

Module EffFacts.
Import Py Eff World BrowserService Stated.
Local Open Scope eff_scope.

Lemma returns_ret {S A} (a : A) : returns (S:=S) (ret a).
Proof. intros s. now exists s, a. Qed.

Lemma returns_bind {S A B} (m : M S A) (k : A -> M S B) :
  returns m -> (forall a, returns (k a)) -> returns (bind m k).
Proof.
  intros Hm Hk s. destruct (Hm s) as (s1 & a & E1).
  unfold bind. rewrite E1. apply Hk.
Qed.

(** A handler that returns makes the whole [try] return. *)
Lemma returns_catch {S A} (m : M S A) (h : exn -> M S A) :
  (forall e, returns (h e)) -> returns (catch m h).
Proof.
  intros Hh s. unfold catch. destruct (m s) as [s1 [e|a]].
  - apply Hh.
  - now exists s1, a.
Qed.

Lemma returns_if {S A} (b : bool) (m1 m2 : M S A) :
  returns m1 -> returns m2 -> returns (if b then m1 else m2).
Proof. now destruct b. Qed.

Section Trace.
Context {E : Env}.

Local Abbreviation silent := (Stated.silent (E:=E)).

Lemma silent_ret {A} (a : A) : silent (ret a).
Proof. now intros s. Qed.

Lemma silent_raise {A} (e : exn) : silent (raise (A:=A) e).
Proof. now intros s. Qed.

Lemma silent_lift {A} (r : exn + A) : silent (lift r).
Proof. now intros s. Qed.

Lemma silent_get_store : silent get_store.
Proof. now intros s. Qed.

Lemma silent_call {A} (op : W E -> W E * (exn + A)) : silent (call op).
Proof. intros s. unfold call. now destruct (op (world s)). Qed.

Lemma silent_set_page b : silent (set_page b).
Proof. now intros s. Qed.

Lemma silent_set_browser b : silent (set_browser b).
Proof. now intros s. Qed.

Lemma silent_set_playwright b : silent (set_playwright b).
Proof. now intros s. Qed.

Lemma silent_bind {A B} (m : M (state E) A) (k : A -> M (state E) B) :
  silent m -> (forall a, silent (k a)) -> silent (bind m k).
Proof.
  intros Hm Hk s. unfold bind. specialize (Hm s).
  destruct (m s) as [s1 [e|a]]; simpl in *; [assumption|].
  now rewrite Hk.
Qed.

Lemma silent_catch {A} (m : M (state E) A) (h : exn -> M (state E) A) :
  silent m -> (forall e, silent (h e)) -> silent (catch m h).
Proof.
  intros Hm Hh s. unfold catch. specialize (Hm s).
  destruct (m s) as [s1 [e|a]]; simpl in *; [|assumption].
  now rewrite Hh.
Qed.

Lemma silent_if {A} (b : bool) (m1 m2 : M (state E) A) :
  silent m1 -> silent m2 -> silent (if b then m1 else m2).
Proof. now destruct b. Qed.

Lemma silent_option {A B} (o : option B) (f : B -> M (state E) A)
  (m : M (state E) A) :
  (forall b, silent (f b)) -> silent m ->
  silent (match o with Some b => f b | None => m end).
Proof. now destruct o. Qed.

End Trace.

Create HintDb eff discriminated.
#[export] Hint Resolve returns_ret returns_bind returns_catch returns_if : eff.
#[export] Hint Resolve silent_ret silent_raise silent_lift silent_get_store
  silent_call silent_set_page silent_set_browser silent_set_playwright
  silent_bind silent_catch silent_if silent_option : eff.

End EffFacts.

(* ===================================================================== *)
(** * The interaction engine *)
(* ===================================================================== *)

Module BrowserFacts.
Import Py Eff World BrowserService Stated EffFacts.
Local Open Scope eff_scope.

Section Engine.
Context {E : Env}.

Lemma attempt_returns (body : M (state E) unit) : returns (attempt body).
Proof. unfold attempt. auto with eff. Qed.

Lemma standard_click_returns selector :
  returns (standard_click (E:=E) selector).
Proof. apply attempt_returns. Qed.

Lemma text_click_returns button_text :
  returns (text_click (E:=E) button_text).
Proof.
  unfold text_click. apply returns_if; auto with eff.
  apply returns_bind; [apply attempt_returns|].
  intros []; auto using attempt_returns with eff.
Qed.

Lemma force_click_returns selector :
  returns (force_click (E:=E) selector).
Proof. apply attempt_returns. Qed.

Lemma js_click_returns selector : returns (js_click (E:=E) selector).
Proof. unfold js_click. auto with eff. Qed.

Lemma iframe_click_returns selector :
  returns (iframe_click (E:=E) selector).
Proof. unfold iframe_click. auto with eff. Qed.

Lemma click_strategies_return selector button_text :
  Forall returns (click_strategies (E:=E) selector button_text).
Proof.
  repeat constructor;
    auto using standard_click_returns, text_click_returns,
      force_click_returns, js_click_returns, iframe_click_returns.
Qed.

Lemma frames_loop_silent selector frames :
  silent (frames_loop (E:=E) selector frames).
Proof.
  induction frames as [|frame rest IH]; simpl; auto 10 with eff.
Qed.

Lemma click_element_silent selector button_text :
  silent (click_element (E:=E) selector button_text).
Proof.
  assert (A : forall body : M (state E) unit, silent body ->
                silent (attempt body))
    by (intros; unfold attempt; auto with eff).
  assert (C : forall loc force,
             silent (call (page_click E loc 5000 force) ;;
                     call (page_wait_for_timeout E 1000)))
    by (intros; auto with eff).
  unfold click_element.
  apply silent_catch; [|auto with eff].
  apply silent_bind; [auto with eff|]. intros s0.
  apply silent_if; [auto with eff|].
  apply silent_bind; [apply A, C|]. intros [|]; [auto with eff|].
  apply silent_bind.
  { unfold text_click. apply silent_if; [|auto with eff].
    apply silent_bind; [apply A, C|].
    intros [|]; [auto with eff|apply A, C]. }
  intros [|]; [auto with eff|].
  apply silent_bind; [apply A, C|]. intros [|]; [auto with eff|].
  apply silent_bind.
  { unfold js_click. apply silent_catch; [|auto with eff].
    apply silent_bind; [auto with eff|].
    intros [el|]; auto 10 with eff. }
  intros [|]; [auto with eff|].
  apply silent_bind.
  { unfold iframe_click. apply silent_catch; [|auto with eff].
    apply silent_bind; [auto with eff|].
    intros frames. apply frames_loop_silent. }
  intros [|]; auto with eff.
Qed.

Lemma click_element_never_raises selector button_text :
  returns (click_element (E:=E) selector button_text).
Proof.
  unfold click_element. apply returns_catch. intros e. apply returns_ret.
Qed.

(** C3.  [click_element] never raises: whatever the selector, the button
    text and the state of the browser, it returns a boolean.  With a page
    at hand that boolean is the one of the table of the five strategies
    (standard click, text click when a button text is given, force click,
    JavaScript click, frames) tried in this order up to the first that
    succeeds: [true] from the first success, [false] when all five have
    failed.  None of the five raises either. *)
Theorem click_element_returns_bool (selector button_text : value)
  (s : state E) :
  (exists s' clicked,
      click_element selector button_text s = (s', inr clicked))
  /\ click_element selector button_text s
     = (if page s
        then first_success (click_strategies selector button_text) s
        else (s, inr false))
  /\ Forall returns (click_strategies (E:=E) selector button_text).
Proof.
  assert (Eq : click_element selector button_text s
               = (if page s
                  then first_success (click_strategies selector button_text) s
                  else (s, inr false))).
  { unfold click_element, click_strategies, first_success, catch, bind,
      get_store, ret.
    destruct (page s); simpl; [|reflexivity].
    destruct (standard_click_returns selector s) as (s1 & [|] & ->);
      [reflexivity|].
    destruct (text_click_returns button_text s1) as (s2 & [|] & ->);
      [reflexivity|].
    destruct (force_click_returns selector s2) as (s3 & [|] & ->);
      [reflexivity|].
    destruct (js_click_returns selector s3) as (s4 & [|] & ->);
      [reflexivity|].
    destruct (iframe_click_returns selector s4) as (s5 & [|] & ->);
      reflexivity. }
  split; [|split; [exact Eq|apply click_strategies_return]].
  apply click_element_never_raises.
Qed.

End Engine.

End BrowserFacts.

(* ===================================================================== *)
(** * The popup loop *)
(* ===================================================================== *)

Module MainFacts.
Import Py Eff World BrowserService PopupDetector Config Main Stated EffFacts
  BrowserFacts.
Local Open Scope eff_scope.
Local Open Scope list_scope.

Section Loop.
Context {E : Env}.

Lemma click_element_run selector button_text (s : state E) :
  exists s' clicked,
    click_element selector button_text s = (s', inr clicked)
    /\ trace s' = trace s.
Proof.
  destruct (click_element_never_raises selector button_text s)
    as (s' & clicked & H).
  exists s', clicked. split; [exact H|].
  pose proof (click_element_silent selector button_text s) as T.
  now rewrite H in T.
Qed.

Lemma bind_lift_inr {A B} (a : A) (k : A -> M (state E) B) s :
  bind (lift (inr a)) k s = k a s.
Proof. reflexivity. Qed.

(** A candidate that qualifies goes to [click_element], and the scan ends
    there when the click succeeded. *)
Lemma scan_qualifying element rest (s : state E) :
  qualifies element = true ->
  exists s1 clicked,
    click_element (fst (target element)) (snd (target element)) s
    = (s1, inr clicked)
    /\ trace s1 = trace s
    /\ let s2 := fst (tell (interaction clicked (target element)) s1) in
       scan_elements (element :: rest) s
       = if clicked then (s2, inr true) else scan_elements rest s2.
Proof.
  intros Q.
  destruct (click_element_run (fst (target element))
              (snd (target element)) s) as (s1 & clicked & Hc & Ht).
  exists s1, clicked. split; [exact Hc|]. split; [exact Ht|].
  revert Q Hc. unfold qualifies, target.
  destruct element; try discriminate.
  cbn [scan_elements Py.get fst snd]. rewrite !bind_lift_inr.
  destruct (gt_threshold _) as [e|above]; [discriminate|].
  rewrite bind_lift_inr. intros -> Hc.
  unfold bind at 1. rewrite Hc. unfold bind at 1. cbn [tell].
  destruct clicked; reflexivity.
Qed.

(** One that does not is passed over, unless reading it raises. *)
Lemma scan_other element rest (s : state E) :
  qualifies element = false ->
  (exists e, scan_elements (element :: rest) s = (s, inl e))
  \/ scan_elements (element :: rest) s = scan_elements rest s.
Proof.
  unfold qualifies. destruct element; try (intros _; left; eexists; reflexivity).
  cbn [scan_elements Py.get]. rewrite !bind_lift_inr.
  destruct (gt_threshold _) as [e|above].
  - intros _. left. eexists. reflexivity.
  - rewrite bind_lift_inr. intros ->. right. reflexivity.
Qed.

Lemma scan_elements_events elements : forall s : state E,
  exists failed hit rest,
    trace (fst (scan_elements elements s))
    = trace s ++ map (interaction false) failed
              ++ map (interaction true) (option_list hit)
    /\ map target (filter qualifies elements)
       = failed ++ option_list hit ++ rest
    /\ (snd (scan_elements elements s) = inr true <-> hit <> None)
    /\ (snd (scan_elements elements s) = inr false -> rest = []).
Proof.
  induction elements as [|element elements IH]; intros s.
  - exists [], None, []. simpl. rewrite app_nil_r.
    repeat split; [discriminate|congruence].
  - destruct (qualifies element) eqn:Q.
    + cbn [filter]. rewrite Q. cbn [map].
      destruct (scan_qualifying element elements s Q)
        as (s1 & clicked & _ & Ht & Step).
      cbv zeta in Step. rewrite Step. destruct clicked.
      * exists [], (Some (target element)),
          (map target (filter qualifies elements)).
        cbn. rewrite Ht. repeat split; congruence.
      * set (s2 := fst (tell (interaction false (target element)) s1)).
        assert (T2 : trace s2
                     = trace s1 ++ [interaction false (target element)])
          by reflexivity.
        destruct (IH s2) as (failed & hit & rest & H1 & H2 & H3 & H4).
        exists (target element :: failed), hit, rest.
        rewrite H1, T2, Ht, H2.
        repeat split; try apply H3; try exact H4.
        cbn. now rewrite <- app_assoc.
    + cbn [filter]. rewrite Q.
      destruct (scan_other element elements s Q) as [[e ->]| ->].
      * exists [], None, (map target (filter qualifies elements)).
        cbn. rewrite app_nil_r.
        repeat split; [discriminate|congruence|discriminate].
      * apply IH.
Qed.

Lemma clicks_app a b : clicks (a ++ b) = (clicks a + clicks b)%nat.
Proof. unfold clicks. now rewrite filter_app, length_app. Qed.

Lemma queries_app a b : queries (a ++ b) = (queries a + queries b)%nat.
Proof. unfold queries. now rewrite filter_app, length_app. Qed.

Lemma queries_interactions clicked l :
  queries (map (interaction clicked) l) = 0%nat.
Proof. induction l as [|t l IH]; [reflexivity|exact IH]. Qed.

Lemma clicks_failed l : clicks (map (interaction false) l) = 0%nat.
Proof. induction l as [|t l IH]; [reflexivity|exact IH]. Qed.

Lemma clicks_hit hit :
  clicks (map (interaction true) (option_list hit))
  = length (option_list hit).
Proof. now destruct hit. Qed.




(** [detect_popups] always returns, and asks the oracle once. *)
Lemma detect_popups_run html (s : state E) :
  exists s' popup_result,
    detect_popups html s = (s', inr popup_result)
    /\ trace s' = trace s ++ [Queried (html_sample html)].
Proof.
  unfold detect_popups, catch, bind, tell, call.
  set (sample := html_sample html). cbn [world].
  destruct (chat_completion_json E sample (world s)) as [w [e|v]];
    eexists; eexists; split; reflexivity.
Qed.

Lemma get_html_silent : silent (get_html (E:=E)).
Proof. unfold get_html. auto with eff. Qed.

(** What one scan adds to the trace: no query, and one successful click
    exactly when it answers [True]. *)
Lemma scan_elements_counts elements (s : state E) :
  exists evs,
    trace (fst (scan_elements elements s)) = trace s ++ evs
    /\ queries evs = 0%nat
    /\ clicks evs = match snd (scan_elements elements s) with
                    | inr true => 1%nat
                    | _ => 0%nat
                    end.
Proof.
  destruct (scan_elements_events elements s)
    as (failed & hit & rest & H1 & _ & H3).
  eexists. split; [exact H1|]. split.
  - now rewrite queries_app, !queries_interactions.
  - rewrite clicks_app, clicks_failed, clicks_hit.
    destruct (snd (scan_elements elements s)) as [e|[|]].
    + destruct hit; [|reflexivity].
      assert (X : Some p <> None) by discriminate.
      apply H3 in X. discriminate.
    + destruct hit; [reflexivity|]. exfalso. now apply (proj1 H3).
    + destruct hit; [|reflexivity].
      assert (X : Some p <> None) by discriminate.
      apply H3 in X. discriminate.
Qed.

(** The loop over any list of attempts. *)
Lemma popup_loop_events attempts : forall html (s s' : state E) result,
  popup_loop attempts html s = (s', result) ->
  exists evs,
    trace s' = trace s ++ evs
    /\ (queries evs <= length attempts)%nat
    /\ (clicks evs <= queries evs)%nat
    /\ match result with
       | inr (Exhausted, _) =>
           queries evs = length attempts /\ clicks evs = length attempts
       | inr (CleanExit, _) | inr (Stalled, _) =>
           S (clicks evs) = queries evs
       | inl _ => True
       end.
Proof.
  induction attempts as [|attempt attempts IH]; intros html s s' result Run.
  - injection Run as <- <-. exists []. rewrite app_nil_r.
    repeat split; cbn; lia.
  - cbn [popup_loop length] in Run |- *.
    destruct (detect_popups_run html s) as (s1 & popup_result & Hd & T1).
    unfold bind at 1 in Run. rewrite Hd in Run.
    set (one := [Queried (html_sample html)]) in T1.
    assert (Q1 : queries one = 1%nat) by reflexivity.
    assert (C1 : clicks one = 0%nat) by reflexivity.
    destruct (Py.get popup_result "popups_found" (VBool false))
      as [e|found].
    { injection Run as <- <-. exists one. repeat split; trivial; lia. }
    rewrite bind_lift_inr in Run.
    destruct (negb (truthy found)).
    { injection Run as <- <-. exists one. repeat split; trivial; lia. }
    destruct (Py.get popup_result "elements" (VList [])) as [e|elements].
    { injection Run as <- <-. exists one. repeat split; trivial; lia. }
    rewrite bind_lift_inr in Run.
    destruct (iterate elements) as [e|items].
    { injection Run as <- <-. exists one. repeat split; trivial; lia. }
    rewrite bind_lift_inr in Run.
    destruct (scan_elements_counts items s1) as (evs & T2 & Q2 & C2).
    unfold bind at 1 in Run.
    destruct (scan_elements items s1) as [s2 [e|clicked_any]] eqn:Scan;
      cbn [fst snd] in T2, C2.
    { injection Run as <- <-. exists (one ++ evs).
      rewrite T2, T1, <- app_assoc, queries_app, clicks_app.
      repeat split; lia. }
    destruct clicked_any.
    2:{ injection Run as <- <-. exists (one ++ evs).
        rewrite T2, T1, <- app_assoc, queries_app, clicks_app.
        repeat split; lia. }
    unfold bind at 1 in Run. cbn [tell] in Run.
    set (s3 := {| world := world s2; playwright := playwright s2;
                  browser := browser s2; page := page s2;
                  trace := trace s2 ++ [Slept 5] |}) in Run.
    assert (T3 : trace s3 = trace s2 ++ [Slept 5]) by reflexivity.
    pose proof (get_html_silent s3) as T4.
    unfold bind at 1 in Run.
    destruct (get_html s3) as [s4 [e|html']]; cbn [fst] in T4.
    { injection Run as <- <-. exists (one ++ evs ++ [Slept 5]).
      rewrite T4, T3, T2, T1, <- !app_assoc, !queries_app, !clicks_app.
      change (queries [Slept 5]) with 0%nat.
      change (clicks [Slept 5]) with 0%nat.
      repeat split; lia. }
    destruct (IH html' s4 s' result Run) as (rest & T5 & Q5 & C5 & Shape).
    exists (one ++ evs ++ [Slept 5] ++ rest).
    rewrite T5, T4, T3, T2, T1, <- !app_assoc, !queries_app, !clicks_app.
    change (queries [Slept 5]) with 0%nat.
    change (clicks [Slept 5]) with 0%nat.
    repeat split; try lia.
    destruct result as [e|[[| |] h]]; trivial; lia.
Qed.

(** C2.  Whatever [max_popup_retries] is, the loop comes to an end having
    asked the oracle at most that many times ([range] of a negative number
    being empty, at most zero times then).  It ends after the last attempt
    of the range, every attempt having clicked once; or on a reply without
    popups, or on an attempt without a successful click, every earlier
    attempt having clicked once; or on an exception. *)
Theorem popup_loop_bounded (max_retries : Z) (html : string) (s : state E) :
  exists s' result evs,
    popup_loop (range max_retries) html s = (s', result)
    /\ trace s' = trace s ++ evs
    /\ (queries evs <= Z.to_nat max_retries)%nat
    /\ (clicks evs <= queries evs)%nat
    /\ match result with
       | inr (Exhausted, _) =>
           queries evs = Z.to_nat max_retries
           /\ clicks evs = Z.to_nat max_retries
       | inr (CleanExit, _) | inr (Stalled, _) =>
           S (clicks evs) = queries evs
       | inl _ => True
       end.
Proof.
  destruct (popup_loop (range max_retries) html s) as [s' result] eqn:Run.
  destruct (popup_loop_events _ _ _ _ _ Run) as (evs & T & Q & C & Shape).
  unfold range in Q, Shape. rewrite length_seq in Q, Shape.
  exists s', result, evs. repeat split; trivial.
Qed.

End Loop.

(** ** Replies that the loop absorbs *)

Section Absorbed.
Context {E : Env}.

(** Over candidates of the asked shape the scan never raises. *)
Lemma scan_well_typed elements :
  Forall (fun element => well_typed element = true) elements ->
  returns (scan_elements (E:=E) elements).
Proof.
  induction elements as [|element elements IH]; intros Hall s.
  - now exists s, false.
  - inversion Hall as [|? ? Hwt Hrest]; subst.
    destruct (qualifies element) eqn:Q.
    + destruct (scan_qualifying element elements s Q)
        as (s1 & clicked & _ & _ & Step).
      cbv zeta in Step. rewrite Step. destruct clicked.
      * eexists; eexists; reflexivity.
      * apply (IH Hrest).
    + assert (Skip : scan_elements (element :: elements) s
                     = scan_elements elements s).
      { revert Q Hwt. unfold qualifies, well_typed.
        destruct element; try discriminate.
        cbn [scan_elements Py.get]. rewrite !bind_lift_inr.
        destruct (lookup "confidence" items) as [c|].
        - destruct c; try discriminate; cbn [gt_threshold];
            rewrite bind_lift_inr; intros -> _; reflexivity.
        - cbn [gt_threshold]. rewrite bind_lift_inr.
          intros -> _. reflexivity. }
      rewrite Skip. apply (IH Hrest).
Qed.

(** When the call or the decoding raises, [detect_popups] answers
    [no_popups] and the loop ends at once, nothing clicked. *)
Lemma oracle_failure_absorbed attempt attempts html (s : state E) e :
  snd (chat_completion_json E (html_sample html) (world s)) = inl e ->
  snd (detect_popups html s) = inr no_popups
  /\ snd (popup_loop (attempt :: attempts) html s) = inr (CleanExit, html)
  /\ trace (fst (popup_loop (attempt :: attempts) html s))
     = trace s ++ [Queried (html_sample html)].
Proof.
  intros H. cbn [popup_loop].
  unfold detect_popups, catch, bind, tell, call.
  set (sample := html_sample html) in *. cbn [world].
  destruct (chat_completion_json E sample (world s)) as [w [e'|v]];
    [|discriminate].
  repeat split.
Qed.

(** A reply without [popups_found] ends the loop the same way; one
    without [elements] ends it with nothing clicked. *)
Lemma missing_fields_default attempt attempts html (s : state E) reply :
  snd (chat_completion_json E (html_sample html) (world s)) = inr reply ->
  (reply = VDict [] ->
   snd (popup_loop (attempt :: attempts) html s) = inr (CleanExit, html))
  /\ (reply = VDict [("popups_found", VBool true)] ->
      snd (popup_loop (attempt :: attempts) html s) = inr (Stalled, html)).
Proof.
  intros H. cbn [popup_loop].
  unfold detect_popups, catch, bind, tell, call.
  set (sample := html_sample html) in *. cbn [world].
  destruct (chat_completion_json E sample (world s)) as [w [e'|v]];
    [discriminate|].
  cbn [snd] in H. injection H as ->.
  split; intros ->; reflexivity.
Qed.

End Absorbed.

(** ** Runs in the scripted world *)

(** The banner is clicked away in the first attempt, the second finds no
    popup, and the article is extracted. *)
Example banner_dismissed :
  Main.extract_content (E:=Samples.with_banner) (fun _ => inr Samples.article)
    (fun _ => inr Samples.example_com) Config.defaults
    "https://example.com/" (World.initial (E:=Samples.with_banner) 0%nat)
  = (Build_state Samples.with_banner 1%nat false false false
       [Queried "<html>";
        Interaction (VStr "#accept") (VStr "Accept All") true;
        Slept 5; Queried "<html>"; Slept 3],
     inr {| Models.success := true;
            Models.data :=
              Some {| Models.title := "News";
                      Models.body :=
                        "A paragraph that is long enough to count.";
                      Models.images := ["https://example.com/a.png"];
                      Models.url := "https://example.com/" |} |}).
Proof. vm_compute. reflexivity. Qed.

(** C4 fails on the code.  The reply [banner_worded_confidence] is a JSON
    object of the asked shape but for its confidence, the string [high].
    [detect_popups] hands it on as it is, the comparison with 0.3 raises a
    [TypeError] in the loop, no candidate reaches [click_element], the
    extraction is never run, and the request ends in a 500; the same
    banner with a numeric confidence is clicked away and the request
    succeeds ([banner_dismissed]). *)
Theorem worded_confidence_aborts :
  snd (detect_popups (E:=Samples.with_worded_confidence) "<html>"
         (Scripted.loaded (E:=Samples.with_worded_confidence) 0%nat))
  = inr Samples.banner_worded_confidence
  /\ Main.popup_loop (E:=Samples.with_worded_confidence)
       (Main.range (max_popup_retries Config.defaults)) "<html>"
       (Scripted.loaded (E:=Samples.with_worded_confidence) 0%nat)
     = (Build_state Samples.with_worded_confidence 0%nat true true true
          [Queried "<html>"],
        inl TypeError)
  /\ snd (Main.extract_content (E:=Samples.with_worded_confidence)
            (fun _ => inr Samples.article)
            (fun _ => inr Samples.example_com) Config.defaults
            "https://example.com/"
            (World.initial (E:=Samples.with_worded_confidence) 0%nat))
     = inl (HTTPException 500).
Proof. repeat split; vm_compute; reflexivity. Qed.


(** A run: the click on the first candidate fails, the second candidate
    is passed over for its confidence, the third is clicked and the
    fourth is not read. *)
Example scan_goes_on_after_a_failed_click :
  scan_elements Cases.four_candidates
    (Scripted.loaded (E:=Cases.only_close) 0%nat)
  = (Build_state Cases.only_close 1%nat true true true
       [Interaction (VStr "#accept") (VStr "Accept") false;
        Interaction (VStr "#close") (VStr "Close") true],
     inr true).
Proof. reflexivity. Qed.

End MainFacts.

(* ===================================================================== *)
(** * The two OpenAI clients *)
(* ===================================================================== *)

Module ClientFacts.
Import Py Eff World BrowserService Stated Observed.
Local Open Scope eff_scope.
Local Open Scope list_scope.

Lemma length_append (x y : string) :
  String.length (x ++ y)%string = (String.length x + String.length y)%nat.
Proof. induction x as [|c x IH]; simpl; [reflexivity|now rewrite IH]. Qed.

(** [s[:n]] is a prefix of [s], at most [n] long, and [s] itself when [s]
    is that short. *)
Lemma substring_head (n : nat) : forall s,
  (String.length (substring 0 n s) <= n)%nat
  /\ (exists rest, s = (substring 0 n s ++ rest)%string)
  /\ ((String.length s <= n)%nat -> substring 0 n s = s).
Proof.
  induction n as [|n IH]; intros s.
  - destruct s as [|c s]; simpl.
    + repeat split; [lia|now exists ""%string].
    + repeat split; [lia|now exists (String c s)|intros H; lia].
  - destruct s as [|c s]; simpl.
    + repeat split; [lia|now exists ""%string].
    + destruct (IH s) as (L & [rest R] & A). repeat split.
      * lia.
      * exists rest. now rewrite <- R.
      * intros H. rewrite A; [reflexivity|lia].
Qed.

(** X1.  What [detect_popups] sends to the oracle is a prefix of the HTML
    of at most 50000 characters, and the whole HTML when the HTML is not
    longer than that. *)
Theorem html_sample_is_prefix (html : string) :
  (String.length (PopupDetector.html_sample html)
   <= PopupDetector.sample_limit)%nat
  /\ (exists rest, html = (PopupDetector.html_sample html ++ rest)%string)
  /\ ((String.length html <= PopupDetector.sample_limit)%nat ->
      PopupDetector.html_sample html = html).
Proof.
  unfold PopupDetector.html_sample.
  generalize PopupDetector.sample_limit as n. intros n.
  destruct (substring_head n html) as (L & R & A).
  destruct (n <? String.length html)%nat eqn:Cut.
  - repeat split; assumption.
  - apply Nat.ltb_ge in Cut. repeat split.
    + exact Cut.
    + exists ""%string. now rewrite StrFacts.append_nil_r.
Qed.

Lemma html_sample_is_prefix_witness :
  PopupDetector.html_sample "<html><body>news</body></html>"
  = "<html><body>news</body></html>"%string.
Proof.
  apply (proj2 (proj2 (html_sample_is_prefix
                         "<html><body>news</body></html>"))).
  apply Nat.leb_le. vm_compute. reflexivity.
Defined.

Section Detector.
Context {E : Env}.

(** X2.  [detect_popups] never raises and asks the oracle exactly once:
    it returns the decoded reply as it is when the call went through and
    [{popups_found: False, elements: []}] when the call or the decoding
    raised, and it leaves the handles of the browser service alone. *)
Theorem detect_popups_total (html : string) (s : state E) :
  exists s' reply,
    PopupDetector.detect_popups html s = (s', inr reply)
    /\ trace s' = trace s ++ [Queried (PopupDetector.html_sample html)]
    /\ same_handles s s'
    /\ reply
       = match snd (chat_completion_json E (PopupDetector.html_sample html)
                      (world s)) with
         | inr decoded => decoded
         | inl _ => PopupDetector.no_popups
         end.
Proof.
  unfold PopupDetector.detect_popups, catch, bind, tell, call, same_handles.
  set (sample := PopupDetector.html_sample html). cbn [world].
  destruct (chat_completion_json E sample (world s)) as [w [e|v]];
    eexists; eexists; repeat split.
Qed.

End Detector.

Section Extractor.
Context {W : Type}.
Variable chat_completion_json : string -> W -> W * (exn + value).

(** X3.  [ContentExtractor.extract_content] never raises.  It returns
    the decoded reply only when that is an object whose title, if it has
    one, is a string or a list; for every other reply, and when the call
    or the decoding raised, it returns the three empty fields. *)
Theorem ai_extract_content_total (html url : string) (w : W) :
  exists w' result,
    ContentExtractor.extract_content chat_completion_json html url w
    = (w', inr result)
    /\ (result = ContentExtractor.empty_fields
        \/ exists d,
             result = VDict d
             /\ snd (chat_completion_json
                       (ContentExtractor.html_sample html) w) = inr result
             /\ match lookup "title" d with
                | Some (VStr _) | Some (VList _) | None => True
                | Some _ => False
                end).
Proof.
  unfold ContentExtractor.extract_content, catch, bind, lift, ret.
  set (sample := ContentExtractor.html_sample html).
  destruct (chat_completion_json sample w) as [w' [e|reply]].
  - exists w', ContentExtractor.empty_fields. split; [reflexivity|now left].
  - destruct reply as [| | | | | |l|d]; cbn [get];
      try (exists w', ContentExtractor.empty_fields;
           split; [reflexivity|now left]).
    destruct (lookup "title" d) as [title|] eqn:T.
    + destruct title; cbn [ContentExtractor.slice];
        try (exists w', ContentExtractor.empty_fields;
             split; [reflexivity|now left]);
        (exists w', (VDict d); split; [reflexivity|right];
         exists d; rewrite T; repeat split).
    + exists w', (VDict d). split; [reflexivity|right].
      exists d. rewrite T. repeat split.
Qed.

End Extractor.

End ClientFacts.

(* ===================================================================== *)
(** * More on the popup loop *)
(* ===================================================================== *)

Module LoopFacts.
Import Py Eff World BrowserService PopupDetector Config Main Stated Observed
  EffFacts BrowserFacts MainFacts.
Local Open Scope eff_scope.
Local Open Scope list_scope.

Section Loop.
Context {E : Env}.

(** What [detect_popups] does, for the proofs below. *)
Lemma detect_popups_cases (html : string) (s : state E) :
  exists s' reply,
    detect_popups html s = (s', inr reply)
    /\ trace s' = trace s ++ [Queried (html_sample html)]
    /\ same_handles s s'
    /\ (reply = no_popups
        \/ snd (chat_completion_json E (html_sample html) (world s))
           = inr reply).
Proof.
  unfold detect_popups, catch, bind, tell, call, same_handles.
  set (sample := html_sample html). cbn [world].
  destruct (chat_completion_json E sample (world s)) as [w [e|v]];
    eexists; eexists; repeat split; auto.
Qed.

(** X4.  A reply whose [popups_found] is missing or falsy ends the loop
    at once, whatever its [elements] hold: the oracle has been asked
    once, no candidate is handed to [click_element], nothing is paused
    and the HTML is handed back as it was. *)
Theorem falsy_popups_found_ends_loop (attempt : nat) (attempts : list nat)
  (html : string) (s : state E) (reply found : value) :
  snd (chat_completion_json E (html_sample html) (world s)) = inr reply ->
  Py.get reply "popups_found" (VBool false) = inr found ->
  truthy found = false ->
  exists s',
    popup_loop (attempt :: attempts) html s = (s', inr (CleanExit, html))
    /\ trace s' = trace s ++ [Queried (html_sample html)]
    /\ same_handles s s'.
Proof.
  intros Hreply Hfound Hfalsy. cbn [popup_loop].
  unfold detect_popups, catch, bind, tell, call, same_handles.
  set (sample := html_sample html) in *. cbn [world].
  destruct (chat_completion_json E sample (world s)) as [w [e|v]];
    [discriminate|].
  cbn [snd] in Hreply. injection Hreply as ->.
  rewrite Hfound. cbn [lift]. rewrite Hfalsy. cbn [negb ret].
  eexists. repeat split.
Qed.

(** X5.  With [max_popup_retries] at zero or below the loop does nothing
    at all: the oracle is not asked, the state is as before and the HTML
    is handed back. *)
Theorem no_retries_no_query (max_retries : Z) (html : string)
  (s : state E) :
  (max_retries <= 0)%Z ->
  popup_loop (range max_retries) html s = (s, inr (Exhausted, html)).
Proof.
  intros H. unfold range.
  replace (Z.to_nat max_retries) with 0%nat by lia. reflexivity.
Qed.

Lemma pauses_app seconds a b :
  pauses seconds (a ++ b) = (pauses seconds a + pauses seconds b)%nat.
Proof. unfold pauses. now rewrite filter_app, length_app. Qed.

Lemma pauses_interactions seconds clicked l :
  pauses seconds (map (interaction clicked) l) = 0%nat.
Proof. induction l as [|t l IH]; [reflexivity|exact IH]. Qed.

(** One scan pauses nowhere, and clicks once exactly when it answers
    [True]. *)
Lemma scan_elements_pauses elements (s : state E) :
  exists evs,
    trace (fst (scan_elements elements s)) = trace s ++ evs
    /\ (forall seconds, pauses seconds evs = 0%nat)
    /\ clicks evs = match snd (scan_elements elements s) with
                    | inr true => 1%nat
                    | _ => 0%nat
                    end.
Proof.
  destruct (scan_elements_events elements s)
    as (failed & hit & rest & H1 & _ & H3).
  eexists. split; [exact H1|]. split.
  - intros seconds. now rewrite pauses_app, !pauses_interactions.
  - rewrite clicks_app, clicks_failed, clicks_hit.
    destruct (snd (scan_elements elements s)) as [e|[|]].
    + destruct hit as [t|]; [|reflexivity].
      assert (X : Some t <> None) by discriminate.
      apply H3 in X. discriminate.
    + destruct hit; [reflexivity|]. exfalso. now apply (proj1 H3).
    + destruct hit as [t|]; [|reflexivity].
      assert (X : Some t <> None) by discriminate.
      apply H3 in X. discriminate.
Qed.

Lemma popup_loop_pauses attempts : forall html (s s' : state E) result,
  popup_loop attempts html s = (s', result) ->
  exists evs,
    trace s' = trace s ++ evs
    /\ forall seconds,
         pauses seconds evs
         = if (seconds =? 5)%Z then clicks evs else 0%nat.
Proof.
  induction attempts as [|attempt attempts IH]; intros html s s' result Run.
  - injection Run as <- <-. exists []. rewrite app_nil_r.
    split; [reflexivity|]. intros seconds. now destruct (seconds =? 5)%Z.
  - cbn [popup_loop] in Run.
    destruct (detect_popups_run html s) as (s1 & popup_result & Hd & T1).
    unfold bind at 1 in Run. rewrite Hd in Run.
    set (one := [Queried (html_sample html)]) in T1.
    assert (One : forall seconds,
               pauses seconds one
               = if (seconds =? 5)%Z then clicks one else 0%nat)
      by (intros seconds; now destruct (seconds =? 5)%Z).
    destruct (Py.get popup_result "popups_found" (VBool false))
      as [e|found].
    { injection Run as <- <-. now exists one. }
    rewrite bind_lift_inr in Run.
    destruct (negb (truthy found)).
    { injection Run as <- <-. now exists one. }
    destruct (Py.get popup_result "elements" (VList [])) as [e|elements].
    { injection Run as <- <-. now exists one. }
    rewrite bind_lift_inr in Run.
    destruct (iterate elements) as [e|items].
    { injection Run as <- <-. now exists one. }
    rewrite bind_lift_inr in Run.
    destruct (scan_elements_pauses items s1) as (evs & T2 & P2 & C2).
    unfold bind at 1 in Run.
    destruct (scan_elements items s1) as [s2 [e|clicked_any]] eqn:Scan;
      cbn [fst snd] in T2, C2.
    { injection Run as <- <-. exists (one ++ evs).
      rewrite T2, T1, <- app_assoc. split; [reflexivity|].
      intros seconds. rewrite pauses_app, clicks_app, P2, C2.
      destruct (seconds =? 5)%Z; reflexivity. }
    destruct clicked_any.
    2:{ injection Run as <- <-. exists (one ++ evs).
        rewrite T2, T1, <- app_assoc. split; [reflexivity|].
        intros seconds. rewrite pauses_app, clicks_app, P2, C2.
        destruct (seconds =? 5)%Z; reflexivity. }
    unfold bind at 1 in Run. cbn [tell] in Run.
    set (s3 := {| world := world s2; playwright := playwright s2;
                  browser := browser s2; page := page s2;
                  trace := trace s2 ++ [Slept 5] |}) in Run.
    assert (T3 : trace s3 = trace s2 ++ [Slept 5]) by reflexivity.
    pose proof (get_html_silent s3) as T4.
    unfold bind at 1 in Run.
    assert (Five : forall seconds,
               pauses seconds [Slept 5]
               = if (seconds =? 5)%Z then 1%nat else 0%nat).
    { intros seconds. unfold pauses. cbn [filter].
      rewrite Z.eqb_sym. now destruct (seconds =? 5)%Z. }
    destruct (get_html s3) as [s4 [e|html']]; cbn [fst] in T4.
    { injection Run as <- <-. exists (one ++ evs ++ [Slept 5]).
      rewrite T4, T3, T2, T1, <- !app_assoc. split; [reflexivity|].
      intros seconds.
      rewrite !pauses_app, !clicks_app, P2, C2, Five.
      change (clicks [Slept 5]) with 0%nat. change (clicks one) with 0%nat.
      change (pauses seconds one) with 0%nat.
      destruct (seconds =? 5)%Z; reflexivity. }
    destruct (IH html' s4 s' result Run) as (rest & T5 & P5).
    exists (one ++ evs ++ [Slept 5] ++ rest).
    rewrite T5, T4, T3, T2, T1, <- !app_assoc. split; [reflexivity|].
    intros seconds.
    rewrite !pauses_app, !clicks_app, P2, C2, Five, P5.
    change (clicks [Slept 5]) with 0%nat. change (clicks one) with 0%nat.
    change (pauses seconds one) with 0%nat.
    destruct (seconds =? 5)%Z; reflexivity.
Qed.

Lemma settled_app_upto n : forall a b,
  (length a <= n)%nat ->
  settled a = true -> settled b = true -> settled (a ++ b) = true.
Proof.
  induction n as [|n IH]; intros a b Len Ha Hb.
  - destruct a; [exact Hb|simpl in Len; lia].
  - destruct a as [|ev a]; [exact Hb|]. simpl in Len.
    destruct ev as [sample|selector button_text [|]|seconds].
    + cbn [app settled] in *. apply IH; [lia|assumption..].
    + destruct a as [|[| |m] a]; try discriminate.
      cbn [app settled] in *. simpl in Len.
      apply andb_true_iff in Ha. destruct Ha as [Hm Ha].
      rewrite Hm. cbn [andb]. apply IH; [lia|assumption..].
    + cbn [app settled] in *. apply IH; [lia|assumption..].
    + discriminate.
Qed.

Lemma settled_app a b :
  settled a = true -> settled b = true -> settled (a ++ b) = true.
Proof. apply (settled_app_upto (length a)). lia. Qed.

Lemma settled_failed l : settled (map (interaction false) l) = true.
Proof. induction l as [|t l IH]; [reflexivity|exact IH]. Qed.

(** What one scan adds: the interactions that failed and, exactly when
    it answers [True], the one that succeeded. *)
Lemma scan_elements_shape elements (s : state E) :
  exists failed,
    match snd (scan_elements elements s) with
    | inr true =>
        exists t,
          trace (fst (scan_elements elements s))
          = trace s ++ map (interaction false) failed
                    ++ [interaction true t]
    | _ =>
        trace (fst (scan_elements elements s))
        = trace s ++ map (interaction false) failed
    end.
Proof.
  destruct (scan_elements_events elements s)
    as (failed & hit & rest & H1 & _ & H3 & _).
  exists failed.
  destruct (snd (scan_elements elements s)) as [e|[|]].
  - destruct hit as [t|].
    + assert (X : Some t <> None) by discriminate.
      apply H3 in X. discriminate.
    + rewrite H1. cbn. now rewrite app_nil_r.
  - destruct hit as [t|]; [now exists t|].
    exfalso. now apply (proj1 H3).
  - destruct hit as [t|].
    + assert (X : Some t <> None) by discriminate.
      apply H3 in X. discriminate.
    + rewrite H1. cbn. now rewrite app_nil_r.
Qed.

Lemma popup_loop_settled attempts : forall html (s s' : state E) result,
  popup_loop attempts html s = (s', result) ->
  exists evs, trace s' = trace s ++ evs /\ settled evs = true.
Proof.
  induction attempts as [|attempt attempts IH]; intros html s s' result Run.
  - injection Run as <- <-. exists []. now rewrite app_nil_r.
  - cbn [popup_loop] in Run.
    destruct (detect_popups_run html s) as (s1 & popup_result & Hd & T1).
    unfold bind at 1 in Run. rewrite Hd in Run.
    set (one := [Queried (html_sample html)]) in T1.
    destruct (Py.get popup_result "popups_found" (VBool false))
      as [e|found].
    { injection Run as <- <-. now exists one. }
    rewrite bind_lift_inr in Run.
    destruct (negb (truthy found)).
    { injection Run as <- <-. now exists one. }
    destruct (Py.get popup_result "elements" (VList [])) as [e|elements].
    { injection Run as <- <-. now exists one. }
    rewrite bind_lift_inr in Run.
    destruct (iterate elements) as [e|items].
    { injection Run as <- <-. now exists one. }
    rewrite bind_lift_inr in Run.
    destruct (scan_elements_shape items s1) as (failed & T2).
    unfold bind at 1 in Run.
    destruct (scan_elements items s1) as [s2 [e|clicked_any]] eqn:Scan;
      cbn [fst snd] in T2.
    { injection Run as <- <-. exists (one ++ map (interaction false) failed).
      rewrite T2, T1, <- app_assoc. split; [reflexivity|].
      apply (settled_failed failed). }
    destruct clicked_any.
    2:{ injection Run as <- <-.
        exists (one ++ map (interaction false) failed).
        rewrite T2, T1, <- app_assoc. split; [reflexivity|].
        apply (settled_failed failed). }
    destruct T2 as (t & T2).
    unfold bind at 1 in Run. cbn [tell] in Run.
    set (s3 := {| world := world s2; playwright := playwright s2;
                  browser := browser s2; page := page s2;
                  trace := trace s2 ++ [Slept 5] |}) in Run.
    assert (T3 : trace s3 = trace s2 ++ [Slept 5]) by reflexivity.
    pose proof (get_html_silent s3) as T4.
    unfold bind at 1 in Run.
    assert (Step : settled (one ++ map (interaction false) failed
                            ++ [interaction true t; Slept 5]) = true).
    { apply (settled_app (map (interaction false) failed)
               [interaction true t; Slept 5]
               (settled_failed failed)).
      reflexivity. }
    destruct (get_html s3) as [s4 [e|html']]; cbn [fst] in T4.
    { injection Run as <- <-.
      exists (one ++ map (interaction false) failed
              ++ [interaction true t; Slept 5]).
      split; [|exact Step].
      rewrite T4, T3, T2, T1, <- !app_assoc. reflexivity. }
    destruct (IH html' s4 s' result Run) as (rest & T5 & P5).
    exists ((one ++ map (interaction false) failed
             ++ [interaction true t; Slept 5]) ++ rest).
    split; [|now apply settled_app].
    rewrite T5, T4, T3, T2, T1, <- !app_assoc. reflexivity.
Qed.

(** X6.  In the loop every successful click is followed at once by one
    call [asyncio.sleep(5)], and [asyncio.sleep] is called nowhere else:
    among the events a run of the loop adds, each candidate that
    [click_element] reported clicked is followed directly by a sleep of
    five seconds, each sleep follows such a candidate, the sleeps of five
    seconds are as many as the successful clicks and there is no sleep of
    another length, however the run ends.  (The events record the calls
    of [asyncio.sleep]; the waits of the driver inside [click_element]
    are not among them.) *)
Theorem settle_after_each_click (attempts : list nat) (html : string)
  (s : state E) :
  exists evs,
    trace (fst (popup_loop attempts html s)) = trace s ++ evs
    /\ settled evs = true
    /\ forall seconds,
         pauses seconds evs
         = if (seconds =? 5)%Z then clicks evs else 0%nat.
Proof.
  destruct (popup_loop attempts html s) as [s' result] eqn:Run.
  destruct (popup_loop_pauses attempts html s s' result Run)
    as (evs & T & Counts).
  destruct (popup_loop_settled attempts html s s' result Run)
    as (evs' & T' & Settled).
  exists evs. cbn [fst]. split; [exact T|]. split; [|exact Counts].
  rewrite T in T'. apply app_inv_head in T'. now rewrite T'.
Qed.

End Loop.

Section Shaped.
Context {E : Env}.

Lemma well_shaped_reads reply :
  well_shaped reply = true ->
  exists found elements items,
    Py.get reply "popups_found" (VBool false) = inr found
    /\ Py.get reply "elements" (VList []) = inr elements
    /\ iterate elements = inr items
    /\ Forall (fun element => well_typed element = true) items.
Proof.
  unfold well_shaped. destruct reply as [| | | | | | |d]; try discriminate.
  cbn [Py.get]. intros H. eexists. 
  destruct (lookup "elements" d) as [[| | | | | |l|]|]; try discriminate.
  - exists (VList l), l. repeat split.
    apply Forall_forall. intros x Hx.
    rewrite forallb_forall in H. now apply H.
  - exists (VList []), []. repeat split. constructor.
Qed.

Lemma popup_loop_raises attempts :
  oracle_well_shaped E ->
  forall html (s s' : state E) e,
    popup_loop attempts html s = (s', inl e) ->
    exists s0 evs selector button_text,
      get_html s0 = (s', inl e)
      /\ trace s0
         = trace s ++ evs ++ [Interaction selector button_text true;
                              Slept 5]
      /\ trace s' = trace s0.
Proof.
  intros Shaped.
  induction attempts as [|attempt attempts IH]; intros html s s' e Run.
  - discriminate.
  - cbn [popup_loop] in Run.
    destruct (detect_popups_cases html s)
      as (s1 & reply & Hd & T1 & _ & Origin).
    unfold bind at 1 in Run. rewrite Hd in Run.
    assert (Ok : well_shaped reply = true).
    { destruct Origin as [->|Origin]; [reflexivity|].
      exact (Shaped _ _ _ Origin). }
    destruct (well_shaped_reads reply Ok)
      as (found & elements & items & Hf & He & Hi & Typed).
    rewrite Hf, bind_lift_inr in Run.
    destruct (negb (truthy found)); [discriminate|].
    rewrite He, bind_lift_inr, Hi, bind_lift_inr in Run.
    destruct (scan_well_typed items Typed s1) as (s2 & clicked & Scan).
    destruct (scan_elements_shape items s1) as (failed & T2).
    unfold bind at 1 in Run. rewrite Scan in Run, T2. cbn [fst snd] in T2.
    destruct clicked; [|discriminate].
    destruct T2 as (t & T2).
    unfold bind at 1 in Run. cbn [tell] in Run.
    unfold bind at 1 in Run.
    match type of Run with
    | context [get_html ?s3] =>
        pose proof (get_html_silent s3) as T4;
        assert (T3 : trace s3 = trace s2 ++ [Slept 5]) by reflexivity;
        destruct (get_html s3) as [s4 [e'|html']] eqn:Html
    end; cbn [fst] in T4.
    + injection Run as <- <-.
      eexists. exists ([Queried (html_sample html)]
                       ++ map (interaction false) failed),
        (fst t), (snd t).
      split; [exact Html|]. split; [|exact T4].
      rewrite T3, T2, T1, <- !app_assoc. reflexivity.
    + destruct (IH html' s4 s' e Run)
        as (s0 & evs & selector & button_text & Html0 & T0 & T').
      exists s0,
        ([Queried (html_sample html)] ++ map (interaction false) failed
         ++ [interaction true t; Slept 5] ++ evs),
        selector, button_text.
      split; [exact Html0|]. split; [|exact T'].
      rewrite T0, T4, T3, T2, T1, <- !app_assoc. reflexivity.
Qed.

(** X7.  When every reply of the oracle is of the asked shape (an
    object whose [elements], if any, is a list of objects with numeric
    confidences), the only exception that can leave the popup loop is
    one raised by [get_html] after a click: the loop raises what
    [get_html] raised in a state whose last two events, among those the
    loop added, are a candidate that [click_element] reported clicked and
    the call [asyncio.sleep(5)] that follows it, and nothing is added
    after them.  Reading such replies never raises, and [click_element]
    never does. *)
Theorem loop_raises_only_from_get_html (attempts : list nat)
  (html : string) (s s' : state E) (e : exn) :
  oracle_well_shaped E ->
  popup_loop attempts html s = (s', inl e) ->
  exists s0 evs selector button_text,
    get_html s0 = (s', inl e)
    /\ trace s0
       = trace s ++ evs ++ [Interaction selector button_text true; Slept 5]
    /\ trace s' = trace s0.
Proof.
  intros Shaped Run. exact (popup_loop_raises attempts Shaped _ _ _ _ Run).
Qed.

End Shaped.

Lemma loop_raises_only_from_get_html_witness :
  exists s0 evs selector button_text,
    get_html s0
    = (fst (popup_loop (range 3) "<html>"
              (Scripted.loaded (E:=Cases.unreadable) 0%nat)),
       inl DriverError)
    /\ trace s0
       = trace (Scripted.loaded (E:=Cases.unreadable) 0%nat)
         ++ evs ++ [Interaction selector button_text true; Slept 5]
    /\ trace (fst (popup_loop (range 3) "<html>"
                     (Scripted.loaded (E:=Cases.unreadable) 0%nat)))
       = trace s0.
Proof.
  apply (loop_raises_only_from_get_html (range 3) "<html>"
           (Scripted.loaded (E:=Cases.unreadable) 0%nat)).
  - intros sample w reply H. cbn in H. injection H as <-. reflexivity.
  - vm_compute. reflexivity.
Defined.

Lemma falsy_popups_found_ends_loop_witness :
  exists s',
    popup_loop [0%nat; 1%nat] "<html>"
      (Scripted.loaded (E:=Cases.denying) 0%nat)
    = (s', inr (CleanExit, "<html>"%string))
    /\ trace s' = [] ++ [Queried (html_sample "<html>")]
    /\ same_handles (Scripted.loaded (E:=Cases.denying) 0%nat) s'.
Proof.
  apply (falsy_popups_found_ends_loop 0%nat [1%nat] "<html>"
           (Scripted.loaded (E:=Cases.denying) 0%nat)
           Cases.denied_with_candidate (VNum 0)); reflexivity.
Defined.

Lemma no_retries_no_query_witness :
  popup_loop (range (-2)) "<html>"
    (Scripted.loaded (E:=Samples.with_banner) 0%nat)
  = (Scripted.loaded (E:=Samples.with_banner) 0%nat,
     inr (Exhausted, "<html>"%string)).
Proof. apply no_retries_no_query. lia. Defined.

End LoopFacts.

(* ===================================================================== *)
(** * The handles of the browser service *)
(* ===================================================================== *)

Module ServiceFacts.
Import Py Eff World BrowserService Stated Observed EffFacts BrowserFacts.
Local Open Scope eff_scope.
Local Open Scope list_scope.

Create HintDb handles discriminated.

Section Handles.
Context {E : Env}.

Local Abbreviation steady := (Observed.steady (E:=E)).

Lemma same_handles_refl (s : state E) : same_handles s s.
Proof. now repeat split. Qed.

Lemma same_handles_trans (s1 s2 s3 : state E) :
  same_handles s1 s2 -> same_handles s2 s3 -> same_handles s1 s3.
Proof.
  unfold same_handles. intros (A1 & A2 & A3) (B1 & B2 & B3).
  repeat split; congruence.
Qed.

Lemma steady_ret {A} (a : A) : steady (ret a).
Proof. intros s. apply same_handles_refl. Qed.

Lemma steady_raise {A} (e : exn) : steady (raise (A:=A) e).
Proof. intros s. apply same_handles_refl. Qed.

Lemma steady_get_store : steady get_store.
Proof. intros s. apply same_handles_refl. Qed.

Lemma steady_call {A} (op : W E -> W E * (exn + A)) : steady (call op).
Proof.
  intros s. unfold call. destruct (op (world s)). now repeat split.
Qed.

Lemma steady_bind {A B} (m : M (state E) A) (k : A -> M (state E) B) :
  steady m -> (forall a, steady (k a)) -> steady (bind m k).
Proof.
  intros Hm Hk s. unfold bind. specialize (Hm s).
  destruct (m s) as [s1 [e|a]]; cbn [fst] in *; [assumption|].
  exact (same_handles_trans _ _ _ Hm (Hk a s1)).
Qed.

Lemma steady_catch {A} (m : M (state E) A) (h : exn -> M (state E) A) :
  steady m -> (forall e, steady (h e)) -> steady (catch m h).
Proof.
  intros Hm Hh s. unfold catch. specialize (Hm s).
  destruct (m s) as [s1 [e|a]]; cbn [fst] in *; [|assumption].
  exact (same_handles_trans _ _ _ Hm (Hh e s1)).
Qed.

Lemma steady_if {A} (b : bool) (m1 m2 : M (state E) A) :
  steady m1 -> steady m2 -> steady (if b then m1 else m2).
Proof. now destruct b. Qed.

Lemma steady_option {A B} (o : option B) (f : B -> M (state E) A)
  (m : M (state E) A) :
  (forall b, steady (f b)) -> steady m ->
  steady (match o with Some b => f b | None => m end).
Proof. now destruct o. Qed.

#[local] Hint Resolve steady_ret steady_raise steady_get_store steady_call
  steady_bind steady_catch steady_if steady_option : handles.

Lemma frames_loop_steady selector frames :
  steady (frames_loop selector frames).
Proof.
  induction frames as [|frame rest IH]; simpl; auto 10 with handles.
Qed.

Lemma click_element_steady selector button_text :
  steady (click_element selector button_text).
Proof.
  pose proof frames_loop_steady.
  unfold click_element, standard_click, text_click, force_click, js_click,
    iframe_click, attempt.
  apply steady_catch; [|auto with handles].
  apply steady_bind; [auto with handles|]. intros s0.
  apply steady_if; [auto with handles|].
  apply steady_bind; [auto 10 with handles|]. intros [|]; [auto with handles|].
  apply steady_bind.
  { apply steady_if; [|auto with handles].
    apply steady_bind; [auto 10 with handles|].
    intros [|]; auto 10 with handles. }
  intros [|]; [auto with handles|].
  apply steady_bind; [auto 10 with handles|]. intros [|]; [auto with handles|].
  apply steady_bind.
  { apply steady_catch; [|auto with handles].
    apply steady_bind; [auto with handles|].
    intros [el|]; auto 10 with handles. }
  intros [|]; [auto with handles|].
  apply steady_bind.
  { apply steady_catch; [|auto with handles].
    apply steady_bind; auto with handles. }
  intros [|]; auto with handles.
Qed.

Lemma get_html_steady : steady get_html.
Proof. unfold get_html. auto with handles. Qed.

(** With closing calls that do not raise, [close] closes everything. *)
Lemma close_closes (s : state E) :
  closes_quietly E ->
  exists s', close s = (s', inr tt) /\ all_closed s'
             /\ trace s' = trace s.
Proof.
  intros (Hp & Hb & Hs).
  unfold close, bind, get_store, call, set_page, set_browser,
    set_playwright, ret, all_closed.
  destruct (page s) eqn:P, (browser s) eqn:B, (playwright s) eqn:Q;
    cbn; rewrite ?P, ?B, ?Q; cbn;
    repeat match goal with
      | |- context [page_close E ?w] =>
          let H := fresh in
          pose proof (Hp w) as H;
          destruct (page_close E w) as [? ?]; cbn in H; subst; cbn;
          rewrite ?P, ?B, ?Q; cbn
      | |- context [browser_close E ?w] =>
          let H := fresh in
          pose proof (Hb w) as H;
          destruct (browser_close E w) as [? ?]; cbn in H; subst; cbn;
          rewrite ?P, ?B, ?Q; cbn
      | |- context [playwright_stop E ?w] =>
          let H := fresh in
          pose proof (Hs w) as H;
          destruct (playwright_stop E w) as [? ?]; cbn in H; subst; cbn;
          rewrite ?P, ?B, ?Q; cbn
      end;
    eexists; repeat split; assumption.
Qed.

(** X8.  [close] can be called again: on a service with nothing open it
    makes no driver call and changes nothing, and after a [close] whose
    driver calls went through a second [close] is of that kind. *)
Theorem close_again_does_nothing (s : state E) :
  (all_closed s -> close s = (s, inr tt))
  /\ (closes_quietly E -> close (fst (close s)) = (fst (close s), inr tt)).
Proof.
  assert (Closed : forall s0 : state E,
             all_closed s0 -> close s0 = (s0, inr tt)).
  { intros s0 (P & B & Q).
    unfold close, bind, get_store. cbn. rewrite P. cbn. rewrite B. cbn.
    rewrite Q. reflexivity. }
  split; [apply Closed|].
  intros Quiet. destruct (close_closes s Quiet) as (s' & -> & All & _).
  apply Closed. exact All.
Qed.

(** X9.  When closing the page raises, [close] stops there: the
    exception goes to the caller, no further driver call is made, and
    the page, the browser and Playwright all stay recorded as open (the
    browser is not closed). *)
Theorem close_stops_at_page_failure (s : state E) (e : exn) :
  page s = true ->
  snd (page_close E (world s)) = inl e ->
  exists s',
    close s = (s', inl e)
    /\ same_handles s s'
    /\ world s' = fst (page_close E (world s))
    /\ trace s' = trace s.
Proof.
  intros P Fail. unfold close, bind, get_store, call. cbn. rewrite P.
  destruct (page_close E (world s)) as [w1 r1]. cbn in Fail. subst r1.
  cbn. eexists. repeat split.
Qed.

Lemma nested_same (s s' : state E) :
  same_handles s s' -> nested s -> nested s'.
Proof.
  unfold same_handles, nested. intros (P & B & Q) (N1 & N2).
  rewrite P, B, Q. now split.
Qed.

Lemma init_browser_nested headless timeout (s : state E) :
  nested s -> nested (fst (_init_browser headless timeout s)).
Proof.
  intros (N1 & N2).
  unfold _init_browser, catch, bind, call, set_playwright, set_browser,
    set_page, raise, nested.
  cbn.
  destruct (playwright_start E (world s)) as [w1 [e1|[]]]; cbn;
    [now split|].
  destruct (chromium_launch E headless w1) as [w2 [e2|[]]]; cbn;
    [split; auto|].
  destruct (browser_new_context E w2) as [w3 [e3|[]]]; cbn;
    [split; auto|].
  destruct (context_new_page E w3) as [w4 [e4|[]]]; cbn;
    [split; auto|].
  destruct (page_set_default_timeout E (timeout_ms timeout) w4)
    as [w5 [e5|[]]]; cbn; split; auto.
Qed.

Lemma load_page_nested headless timeout url (s : state E) :
  nested s -> nested (fst (load_page headless timeout url s)).
Proof.
  intros N.
  assert (Rest : steady (call (page_goto E url) ;;
                         call (page_wait_for_timeout E 3000) ;;
                         call (page_content E)))
    by auto with handles.
  unfold load_page, bind at 1, get_store.
  destruct (page s); cbn [negb]; unfold bind at 1.
  - cbn [ret]. exact (nested_same _ _ (Rest s) N).
  - pose proof (init_browser_nested headless timeout s N) as N1.
    destruct (_init_browser headless timeout s) as [s1 [e|[]]];
      cbn [fst] in *; [exact N1|].
    exact (nested_same _ _ (Rest s1) N1).
Qed.

Lemma close_nested (s : state E) : nested s -> nested (fst (close s)).
Proof.
  intros (N1 & N2).
  unfold close, bind, get_store, call, set_page, set_browser,
    set_playwright, ret, nested.
  destruct (page s) eqn:P, (browser s) eqn:B, (playwright s) eqn:Q;
    cbn; rewrite ?P, ?B, ?Q; cbn;
    repeat match goal with
      | |- context [page_close E ?w] =>
          destruct (page_close E w) as [? [?|[]]]; cbn;
          rewrite ?P, ?B, ?Q; cbn
      | |- context [browser_close E ?w] =>
          destruct (browser_close E w) as [? [?|[]]]; cbn;
          rewrite ?P, ?B, ?Q; cbn
      | |- context [playwright_stop E ?w] =>
          destruct (playwright_stop E w) as [? [?|[]]]; cbn;
          rewrite ?P, ?B, ?Q; cbn
      end;
    split; intros; try congruence; auto.
Qed.

(** X10.  The service keeps its handles nested: as long as a page is
    recorded a browser is, and as long as a browser is recorded
    Playwright is.  [load_page] and [close] keep it so on all their
    paths, failures included, and [click_element] and [get_html] never
    touch the three handles. *)
Theorem handles_stay_nested (headless : bool) (timeout : Z) (url : string)
  (selector button_text : value) (s : state E) :
  nested s ->
  nested (fst (load_page headless timeout url s))
  /\ nested (fst (close s))
  /\ same_handles s (fst (click_element selector button_text s))
  /\ same_handles s (fst (get_html s)).
Proof.
  intros N. repeat split.
  - now apply load_page_nested.
  - now apply load_page_nested.
  - now apply close_nested.
  - now apply close_nested.
  - apply click_element_steady.
  - apply click_element_steady.
  - apply click_element_steady.
  - apply get_html_steady.
  - apply get_html_steady.
  - apply get_html_steady.
Qed.

(** What [_init_browser] leaves and returns, call by call. *)
Lemma init_browser_cases headless timeout (s : state E) :
  page s = false ->
  (snd (_init_browser headless timeout s) = inr tt
   \/ snd (_init_browser headless timeout s) = inl RuntimeError)
  /\ page (fst (_init_browser headless timeout s))
     = page_made E headless (world s)
  /\ trace (fst (_init_browser headless timeout s)) = trace s.
Proof.
  intros P.
  unfold _init_browser, catch, bind, call, set_playwright, set_browser,
    set_page, raise, page_made.
  cbn.
  destruct (playwright_start E (world s)) as [w1 [e1|[]]]; cbn;
    [now repeat split; auto|].
  destruct (chromium_launch E headless w1) as [w2 [e2|[]]]; cbn;
    [now repeat split; auto|].
  destruct (browser_new_context E w2) as [w3 [e3|[]]]; cbn;
    [now repeat split; auto|].
  destruct (context_new_page E w3) as [w4 [e4|[]]]; cbn;
    [now repeat split; auto|].
  destruct (page_set_default_timeout E (timeout_ms timeout) w4)
    as [w5 [e5|[]]]; cbn; repeat split; auto.
Qed.

(** X11.  When the browser cannot be initialised, [load_page] raises a
    [RuntimeError] whatever the driver raised and does not go on to load
    the URL: the service and the world are left as the failed
    initialisation left them, with nothing added to the trace.  A page is
    recorded then exactly when the driver got as far as making one, that
    is when the failure came from setting its default time-out; when
    starting Playwright, launching the browser, making the context or
    making the page failed, no page is recorded. *)
Theorem load_page_without_browser (headless : bool) (timeout : Z)
  (url : string) (s : state E) :
  page s = false ->
  snd (_init_browser headless timeout s) <> inr tt ->
  load_page headless timeout url s
  = (fst (_init_browser headless timeout s), inl RuntimeError)
  /\ page (fst (_init_browser headless timeout s))
     = page_made E headless (world s)
  /\ trace (fst (_init_browser headless timeout s)) = trace s.
Proof.
  intros P Fail.
  destruct (init_browser_cases headless timeout s P)
    as ([Ok|Raised] & Made & Tr); [contradiction|].
  split; [|split; assumption].
  unfold load_page, bind at 1, get_store. rewrite P. cbn [negb].
  unfold bind at 1.
  destruct (_init_browser headless timeout s) as [s1 r1].
  cbn [snd fst] in *. now rewrite Raised.
Qed.

End Handles.

Lemma sound_closes_quietly : closes_quietly Cases.sound.
Proof. repeat split. Qed.

Lemma close_again_does_nothing_witness :
  close (Scripted.loaded (E:=Cases.sound) 0%nat)
  = (Build_state Cases.sound 3%nat false false false [], inr tt)
  /\ close (fst (close (Scripted.loaded (E:=Cases.sound) 0%nat)))
     = (fst (close (Scripted.loaded (E:=Cases.sound) 0%nat)), inr tt).
Proof.
  split; [reflexivity|].
  apply (proj2 (close_again_does_nothing
                  (Scripted.loaded (E:=Cases.sound) 0%nat))).
  exact sound_closes_quietly.
Defined.

Lemma close_stops_at_page_failure_witness :
  exists s',
    close (Scripted.loaded (E:=Cases.stuck_page) 0%nat)
    = (s', inl DriverError)
    /\ same_handles (Scripted.loaded (E:=Cases.stuck_page) 0%nat) s'
    /\ world s'
       = fst (page_close Cases.stuck_page
                (world (Scripted.loaded (E:=Cases.stuck_page) 0%nat)))
    /\ trace s' = trace (Scripted.loaded (E:=Cases.stuck_page) 0%nat).
Proof.
  apply (close_stops_at_page_failure
           (Scripted.loaded (E:=Cases.stuck_page) 0%nat) DriverError);
    reflexivity.
Defined.

Lemma handles_stay_nested_witness :
  nested (fst (load_page true 30 "https://example.com/"
                 (World.initial (E:=Cases.no_browser) 0%nat)))
  /\ nested (fst (close (World.initial (E:=Cases.no_browser) 0%nat)))
  /\ same_handles (World.initial (E:=Cases.no_browser) 0%nat)
       (fst (click_element (VStr "#accept") (VStr "")
               (World.initial (E:=Cases.no_browser) 0%nat)))
  /\ same_handles (World.initial (E:=Cases.no_browser) 0%nat)
       (fst (get_html (World.initial (E:=Cases.no_browser) 0%nat))).
Proof.
  apply (handles_stay_nested true 30 "https://example.com/"
           (VStr "#accept") (VStr "")
           (World.initial (E:=Cases.no_browser) 0%nat)).
  split; discriminate.
Defined.

Lemma load_page_without_browser_witness :
  load_page true 30 "https://example.com/"
    (World.initial (E:=Cases.no_time_out) 0%nat)
  = (fst (_init_browser true 30
            (World.initial (E:=Cases.no_time_out) 0%nat)),
     inl RuntimeError)
  /\ page (fst (_init_browser true 30
                  (World.initial (E:=Cases.no_time_out) 0%nat)))
     = page_made Cases.no_time_out true
         (world (World.initial (E:=Cases.no_time_out) 0%nat))
  /\ trace (fst (_init_browser true 30
                   (World.initial (E:=Cases.no_time_out) 0%nat)))
     = trace (World.initial (E:=Cases.no_time_out) 0%nat).
Proof.
  apply load_page_without_browser; [reflexivity|].
  vm_compute. discriminate.
Defined.

(** The two kinds of failure, run: without a browser no page is recorded
    and only Playwright is; when only the time-out cannot be set the page
    is recorded although [load_page] raises. *)
Example failed_initialisations :
  load_page true 30 "https://example.com/"
    (World.initial (E:=Cases.no_browser) 0%nat)
  = (Build_state Cases.no_browser 1%nat true false false [],
     inl RuntimeError)
  /\ load_page true 30 "https://example.com/"
       (World.initial (E:=Cases.no_time_out) 0%nat)
     = (Build_state Cases.no_time_out 4%nat true true true [],
        inl RuntimeError).
Proof. split; reflexivity. Qed.

End ServiceFacts.

(* ===================================================================== *)
(** * The endpoint *)
(* ===================================================================== *)

Module EndpointFacts.
Import Py Eff World BrowserService PopupDetector Config Main Stated Observed
  EffFacts ServiceFacts.
Local Open Scope eff_scope.
Local Open Scope list_scope.

Section Endpoint.
Context {E : Env}.
Variable BeautifulSoup : string -> exn + Dom.soup.
Variable urlparse : string -> exn + LocalContentExtractor.ParseResult.
Variable settings : Settings.

Local Abbreviation guarded :=
  (Observed.guarded (E:=E) BeautifulSoup urlparse settings).

Lemma guarded_result url (s : state E) :
  match snd (guarded url s) with
  | inr _ => True
  | inl (HTTPException _) => True
  | inl _ => False
  end.
Proof.
  unfold Observed.guarded, catch.
  destruct (extract_body BeautifulSoup urlparse settings url s)
    as [s1 [e|r]]; [|exact I].
  destruct e; exact I.
Qed.

Lemma endpoint_run url (s : state E) :
  closes_quietly E ->
  exists s',
    Main.extract_content BeautifulSoup urlparse settings url s
    = (s', snd (guarded url s))
    /\ all_closed s'
    /\ trace s' = trace (fst (guarded url s)).
Proof.
  intros Quiet.
  change (Main.extract_content BeautifulSoup urlparse settings url)
    with (finally (guarded url) close).
  unfold finally. destruct (guarded url s) as [s1 r]. cbn [fst snd].
  destruct (close_closes s1 Quiet) as (s2 & -> & All & T).
  now exists s2.
Qed.

(** X12.  The endpoint closes the browser on every path: when the three
    closing calls of the driver do not raise, the request ends with no
    page, no browser and no Playwright recorded, whether it answered,
    found no article or failed. *)
Theorem browser_closed_on_every_path (url : string) (s : state E) :
  closes_quietly E ->
  all_closed
    (fst (Main.extract_content BeautifulSoup urlparse settings url s)).
Proof.
  intros Quiet. destruct (endpoint_run url s Quiet) as (s' & -> & All & _).
  exact All.
Qed.

(** X13.  Nothing but a response or an [HTTPException] leaves the
    endpoint when closing does not raise: every other exception of the
    request has been turned into status 500. *)
Theorem only_http_exceptions (url : string) (s : state E) :
  closes_quietly E ->
  match snd (Main.extract_content BeautifulSoup urlparse settings url s)
  with
  | inr _ => True
  | inl (HTTPException _) => True
  | inl _ => False
  end.
Proof.
  intros Quiet. destruct (endpoint_run url s Quiet) as (s' & -> & _).
  apply guarded_result.
Qed.



End Endpoint.

Lemma browser_closed_on_every_path_witness :
  all_closed
    (fst (Main.extract_content (E:=Cases.sound)
            (fun _ => inr Samples.article)
            (fun _ => inr Samples.example_com) Config.defaults
            "https://example.com/" (World.initial (E:=Cases.sound) 0%nat))).
Proof.
  apply browser_closed_on_every_path. exact sound_closes_quietly.
Defined.

Lemma only_http_exceptions_witness :
  match snd (Main.extract_content (E:=Cases.unreadable)
               (fun _ => inr Samples.article)
               (fun _ => inr Samples.example_com) Config.defaults
               "https://example.com/"
               (World.initial (E:=Cases.unreadable) 0%nat))
  with
  | inr _ => True
  | inl (HTTPException _) => True
  | inl _ => False
  end.
Proof.
  apply only_http_exceptions. repeat split.
Defined.


End EndpointFacts.

(* ===================================================================== *)
(** * More on the content extractor *)
(* ===================================================================== *)

Module BodyFacts.
Import Str StrFacts Py Eff Dom LocalContentExtractor Stated Observed
  ExtractorFacts.
Local Open Scope list_scope.

(** Induction over a tree and the trees below it. *)
Lemma node_tree_ind (P : node -> Prop) :
  (forall s, P (Text s)) ->
  (forall s, P (Hidden s)) ->
  (forall nm attrs cs, Forall P cs -> P (Tag nm attrs cs)) ->
  forall n, P n.
Proof.
  intros HText HHidden HTag.
  fix IH 1. intros [s|s|nm attrs cs].
  - apply HText.
  - apply HHidden.
  - apply HTag. induction cs as [|c cs IHcs]; constructor.
    + apply IH.
    + exact IHcs.
Qed.

Lemma Forall_flat_map {A B} (P : B -> Prop) (f : A -> list B) l :
  Forall (fun a => Forall P (f a)) l -> Forall P (flat_map f l).
Proof.
  induction 1 as [|a l Ha _ IH]; simpl; [constructor|].
  apply Forall_app. now split.
Qed.

Lemma flat_map_flat_map {A B C} (f : A -> list B) (g : B -> list C) l :
  flat_map g (flat_map f l) = flat_map (fun a => flat_map g (f a)) l.
Proof.
  induction l as [|a l IH]; simpl; [reflexivity|].
  now rewrite flat_map_app, IH.
Qed.

(** Nothing named in [names] is left below a pruned tree. *)
Lemma prune_leaves_none names n :
  Forall (fun m => is_named names m = false)
    (flat_map (fun c => c :: descendants c) (prune names n)).
Proof.
  induction n as [s|s|nm attrs cs IH] using node_tree_ind.
  - repeat constructor.
  - repeat constructor.
  - cbn [prune]. destruct (existsb (String.eqb nm) names) eqn:Named.
    + constructor.
    + cbn [flat_map descendants]. rewrite app_nil_r. constructor.
      * exact Named.
      * rewrite flat_map_flat_map. apply Forall_flat_map.
        exact IH.
Qed.

Lemma prune_again names n :
  flat_map (prune names) (prune names n) = prune names n.
Proof.
  induction n as [s|s|nm attrs cs IH] using node_tree_ind.
  - reflexivity.
  - reflexivity.
  - cbn [prune]. destruct (existsb (String.eqb nm) names) eqn:Named.
    + reflexivity.
    + cbn [flat_map prune]. rewrite Named, app_nil_r. do 2 f_equal.
      rewrite flat_map_flat_map.
      induction IH as [|c cs Hc _ IHcs]; simpl; [reflexivity|].
      now rewrite Hc, IHcs.
Qed.

Lemma filter_all_false {A} (p : A -> bool) l :
  Forall (fun x => p x = false) l -> filter p l = [].
Proof.
  induction 1 as [|x l Hx _ IH]; simpl; [reflexivity|]. now rewrite Hx.
Qed.

(** X15.  The body step removes every script, style, nav, header,
    footer, aside and iframe element from the soup it shares with the
    image step, at whatever depth: none of them can be found in the soup
    afterwards, and a second body step would find the soup as the first
    left it. *)
Theorem body_step_strips_soup (doc : soup) :
  find_all unwanted (fst (_extract_body doc)) = []
  /\ fst (_extract_body (fst (_extract_body doc))) = fst (_extract_body doc).
Proof.
  assert (Store : forall d, fst (_extract_body d) = decompose_all unwanted d).
  { intros d. destruct (run_extract_body d) as [body ->]. reflexivity. }
  rewrite !Store. unfold find_all, decompose_all, soup_descendants. split.
  - apply filter_all_false. rewrite flat_map_flat_map.
    apply Forall_flat_map. apply Forall_forall. intros n _.
    apply prune_leaves_none.
  - rewrite flat_map_flat_map.
    induction doc as [|n doc IH]; simpl; [reflexivity|].
    now rewrite prune_again, IH.
Qed.

Lemma clean_up_clean text : clean (clean_up text).
Proof.
  unfold clean, clean_up, collapse.
  set (a := collapse_from nl 3 2 0 text).
  set (b := collapse_from sp 2 1 0 a).
  assert (Ha : runs_below nl 3 0 a = true)
    by (apply runs_below_collapse; lia).
  assert (Hb_nl : runs_below nl 3 0 b = true)
    by (apply runs_below_collapse_other; trivial; lia).
  assert (Hb_sp : runs_below sp 2 0 b = true)
    by (apply runs_below_collapse; lia).
  repeat split.
  - apply strip_idem.
  - now apply runs_below_strip.
  - now apply runs_below_strip.
Qed.

(** X16.  The body step never raises and its text is clean whatever the
    document: no whitespace at either end, never three newlines in a row
    and never two spaces in a row. *)
Theorem body_is_clean (doc : soup) :
  exists body, snd (_extract_body doc) = inr body /\ clean body.
Proof.
  unfold _extract_body, bind, get_store, put_store, ret.
  destruct (main_content (decompose_all unwanted doc)) as [area|]; cbn.
  - eexists. split; [reflexivity|]. apply clean_up_clean.
  - exists ""%string. split; [reflexivity|]. now repeat split.
Qed.

Lemma collect_text_short elements : forall text_parts,
  (forall element, In element elements -> long_text element = false) ->
  collect_text elements text_parts = text_parts.
Proof.
  induction elements as [|element elements IH]; intros text_parts Short;
    [reflexivity|].
  cbn [collect_text]. unfold long_text in Short.
  rewrite (Short element (or_introl eq_refl)), andb_false_r.
  apply IH. intros el Hel. apply Short. now right.
Qed.

(** X17.  Text of 20 characters or less is dropped: when no paragraph,
    heading, list item, table cell or [div] of the content area has a
    stripped text of more than 20 characters, the body is empty. *)
Theorem short_text_gives_empty_body (doc : soup) (area : node) :
  main_content (decompose_all unwanted doc) = Some area ->
  (forall element, In element (find_all_in text_tags area) ->
                   long_text element = false) ->
  snd (_extract_body doc) = inr ""%string.
Proof.
  intros Area Short.
  unfold _extract_body, bind, get_store, put_store, ret. cbn.
  rewrite Area. cbn. now rewrite (collect_text_short _ [] Short).
Qed.

Lemma short_text_gives_empty_body_witness :
  snd (_extract_body Cases.short_page) = inr ""%string.
Proof.
  apply (short_text_gives_empty_body Cases.short_page
           (Tag "body" [] [Tag "p" [] [Text "Too short."]]));
    [reflexivity|].
  intros element [<-|[]]. reflexivity.
Defined.

(** ** Images and the page URL *)

Section Base.
Variable BeautifulSoup : string -> exn + soup.

(** An image that does not need the base URL is dealt with without
    [urlparse]. *)
Lemma images_step_without_base img :
  needs_base img = false ->
  exists added,
    forall (urlparse : string -> exn + ParseResult) url rest images,
      images_loop urlparse url (img :: rest) images
      = images_loop urlparse url rest (images ++ added).
Proof.
  unfold needs_base, source_of. cbn [images_loop].
  unfold or_else, truthy_str.
  assert (Same : forall (u : string -> exn + ParseResult) url rest images,
             images_loop u url rest images
             = images_loop u url rest (images ++ []))
    by (intros; now rewrite app_nil_r).
  destruct (get img "src") as [s|];
    [destruct (s =? "")%string eqn:Es; cbn [negb]|].
  2:{ rewrite Es. cbn [negb andb].
      destruct (skip_small _ _); cbn [negb andb];
        [intros _; now exists []|].
      destruct (startswith s "//"); cbn [negb andb];
        [intros _; now eexists|].
      intros ->.
      destruct (startswith s "http"); cbn [negb];
        [now eexists|now exists []]. }
  all: destruct (get img "data-src") as [t|]; [|intros _; now exists []].
  all: destruct (t =? "")%string; cbn [negb andb];
    [intros _; now exists []|].
  all: destruct (skip_small _ _); cbn [negb andb];
    [intros _; now exists []|].
  all: destruct (startswith t "//"); cbn [negb andb];
    [intros _; now eexists|].
  all: intros ->.
  all: destruct (startswith t "http"); cbn [negb];
    [now eexists|now exists []].
Qed.

(** One that needs it makes the loop raise what [urlparse] raises. *)
Lemma images_step_with_base img :
  needs_base img = true ->
  forall (urlparse : string -> exn + ParseResult) url e rest images,
    urlparse url = inl e ->
    images_loop urlparse url (img :: rest) images = inl e.
Proof.
  unfold needs_base, source_of. cbn [images_loop].
  unfold or_else, truthy_str.
  intros Needs urlparse url e rest images Fail.
  destruct (get img "src") as [s|];
    [destruct (s =? "")%string eqn:Es; cbn [negb]|].
  2:{ rewrite Es in *. cbn [negb andb] in *.
      destruct (skip_small _ _); [discriminate|].
      destruct (startswith s "//"); [discriminate|].
      cbn [negb andb] in Needs. now rewrite Needs, Fail. }
  all: destruct (get img "data-src") as [t|]; [|discriminate].
  all: destruct (t =? "")%string; [discriminate|]; cbn [negb andb] in *.
  all: destruct (skip_small _ _); [discriminate|].
  all: destruct (startswith t "//"); [discriminate|].
  all: cbn [negb andb] in Needs; now rewrite Needs, Fail.
Qed.

Lemma images_loop_without_base imgs :
  Forall (fun img => needs_base img = false) imgs ->
  forall images, exists result,
    forall (urlparse : string -> exn + ParseResult) url,
      images_loop urlparse url imgs images = inr result.
Proof.
  induction 1 as [|img imgs Himg _ IH]; intros images.
  - now exists images.
  - destruct (images_step_without_base img Himg) as [added Step].
    destruct (IH (images ++ added)) as [result Rest].
    exists result. intros urlparse url. now rewrite Step.
Qed.

Lemma images_loop_fails (urlparse : string -> exn + ParseResult) url e imgs :
  urlparse url = inl e ->
  Exists (fun img => needs_base img = true) imgs ->
  forall images, images_loop urlparse url imgs images = inl e.
Proof.
  intros Fail. induction 1 as [img imgs Himg|img imgs _ IH]; intros images.
  - now apply images_step_with_base.
  - destruct (needs_base img) eqn:Needs.
    + now apply images_step_with_base.
    + destruct (images_step_without_base img Needs) as [added Step].
      rewrite Step. apply IH.
Qed.

(** X18.  The page URL only matters for images whose source starts with
    a single slash.  When no image left in the document has such a
    source (or each such image is skipped for its size), extraction
    never calls [urlparse]: it cannot fail on the URL and returns the
    same content whatever the URL is. *)
Theorem url_only_matters_for_rooted_sources (html : string) (doc : soup) :
  BeautifulSoup html = inr doc ->
  Forall (fun img => needs_base img = false)
    (find_all ["img"] (decompose_all unwanted doc)) ->
  exists c,
    forall (urlparse : string -> exn + ParseResult) (url : string),
      extract_content_try BeautifulSoup urlparse html url = inr c
      /\ extract_content BeautifulSoup urlparse html url = c.
Proof.
  intros Parsed NoBase.
  destruct (images_loop_without_base _ NoBase []) as [result Loop].
  destruct (run_extract_body doc) as [body Hb].
  exists {| title := first_title (strategies doc); body := body;
            images := firstn 10 result |}.
  intros urlparse url.
  assert (Try : extract_content_try BeautifulSoup urlparse html url
                = inr {| title := first_title (strategies doc);
                         body := body; images := firstn 10 result |}).
  { unfold extract_content_try. rewrite Parsed.
    unfold extract_steps, bind. rewrite run_extract_title, Hb.
    unfold _extract_images, bind, get_store, lift, ret.
    now rewrite Loop. }
  split; [exact Try|]. unfold extract_content. now rewrite Try.
Qed.

(** X19.  One image is enough to lose the whole page: when [urlparse]
    raises on the page URL and an image left in the document has a
    source starting with a single slash (and is not skipped for its
    size), [extract_content] returns an empty title, an empty body and
    no image, whatever the document holds, and the endpoint's test for
    "no article content" holds. *)
Theorem failing_urlparse_empties_content
  (urlparse : string -> exn + ParseResult) (html url : string)
  (doc : soup) (e : exn) :
  BeautifulSoup html = inr doc ->
  urlparse url = inl e ->
  Exists (fun img => needs_base img = true)
    (find_all ["img"] (decompose_all unwanted doc)) ->
  extract_content BeautifulSoup urlparse html url = empty_content
  /\ Main.no_article (extract_content BeautifulSoup urlparse html url)
     = true.
Proof.
  intros Parsed Fail Needs.
  assert (Empty : extract_content BeautifulSoup urlparse html url
                  = empty_content).
  { unfold extract_content, extract_content_try. rewrite Parsed.
    destruct (run_extract_steps urlparse url doc) as [body ->].
    now rewrite (images_loop_fails urlparse url e _ Fail Needs). }
  split; [exact Empty|]. now rewrite Empty.
Qed.

End Base.

Lemma url_only_matters_for_rooted_sources_witness :
  exists c,
    forall (urlparse : string -> exn + ParseResult) (url : string),
      extract_content_try (fun _ => inr Samples.article) urlparse "" url
      = inr c
      /\ extract_content (fun _ => inr Samples.article) urlparse "" url = c.
Proof.
  apply (url_only_matters_for_rooted_sources
           (fun _ => inr Samples.article) "" Samples.article);
    [reflexivity|].
  repeat constructor.
Defined.

Lemma failing_urlparse_empties_content_witness :
  extract_content (fun _ => inr Cases.rooted_image)
    (fun _ => inl ValueError) "" "http://[example"
  = empty_content
  /\ Main.no_article
       (extract_content (fun _ => inr Cases.rooted_image)
          (fun _ => inl ValueError) "" "http://[example") = true.
Proof.
  apply (failing_urlparse_empties_content
           (fun _ => inr Cases.rooted_image) (fun _ => inl ValueError)
           "" "http://[example" Cases.rooted_image ValueError);
    [reflexivity|reflexivity|].
  constructor. reflexivity.
Defined.

(** ** Nested text *)

Lemma get_text_strip_wrapper nm attrs n a cs :
  get_text_strip (Tag nm attrs [Tag n a cs])
  = get_text_strip (Tag n a cs).
Proof.
  unfold get_text_strip. cbn [descendants flat_map text_of].
  now rewrite !app_nil_r.
Qed.

Lemma collect_text_long element elements text_parts :
  long_text element = true ->
  collect_text (element :: elements) text_parts
  = collect_text elements
      (text_parts ++ [format_text element (get_text_strip element)]).
Proof.
  unfold long_text. intros Long. cbn [collect_text]. rewrite Long.
  destruct (get_text_strip element =? "")%string eqn:Empty;
    [|reflexivity].
  apply String.eqb_eq in Empty. rewrite Empty in Long. discriminate.
Qed.

Lemma collect_text_grows elements : forall text_parts,
  exists more, collect_text elements text_parts = text_parts ++ more.
Proof.
  induction elements as [|element elements IH]; intros text_parts.
  - exists []. now rewrite app_nil_r.
  - cbn [collect_text].
    destruct (negb (get_text_strip element =? "")%string
              && (20 <? String.length (get_text_strip element))%nat).
    + destruct (IH (text_parts
                    ++ [format_text element (get_text_strip element)]))
        as [more ->].
      eexists. now rewrite <- app_assoc.
    + apply IH.
Qed.

(** X20.  Text is repeated once for every [div] around it.  When the
    content area holds a [div] whose only child is a text element of
    more than 20 characters, the collected fragments start with that
    text for the [div] and go on with the same text, in its own format,
    for the element itself. *)
Theorem wrapper_repeats_text (area_name : string)
  (area_attrs attrs a : list (string * string)) (n : string)
  (cs : list node) :
  is_named text_tags (Tag n a cs) = true ->
  long_text (Tag n a cs) = true ->
  exists rest,
    collect_text
      (find_all_in text_tags
         (Tag area_name area_attrs [Tag "div" attrs [Tag n a cs]])) []
    = get_text_strip (Tag n a cs)
      :: format_text (Tag n a cs) (get_text_strip (Tag n a cs))
      :: rest.
Proof.
  intros Named Long.
  assert (LongDiv : long_text (Tag "div" attrs [Tag n a cs]) = true).
  { unfold long_text in *. now rewrite get_text_strip_wrapper. }
  assert (Found : find_all_in text_tags
                    (Tag area_name area_attrs [Tag "div" attrs [Tag n a cs]])
                  = Tag "div" attrs [Tag n a cs] :: Tag n a cs
                    :: filter (is_named text_tags) (descendants (Tag n a cs))).
  { unfold find_all_in. cbn [descendants flat_map]. rewrite !app_nil_r.
    cbn [filter].
    change (is_named text_tags (Tag "div" attrs [Tag n a cs])) with true.
    cbn iota. now rewrite Named. }
  rewrite Found, (collect_text_long _ _ _ LongDiv),
    (collect_text_long _ _ _ Long), get_text_strip_wrapper.
  destruct (collect_text_grows
              (filter (is_named text_tags) (descendants (Tag n a cs)))
              (([] ++ [format_text (Tag "div" attrs [Tag n a cs])
                         (get_text_strip (Tag n a cs))])
               ++ [format_text (Tag n a cs) (get_text_strip (Tag n a cs))]))
    as [more ->].
  exists more. reflexivity.
Qed.

Lemma wrapper_repeats_text_witness :
  exists rest,
    collect_text (find_all_in text_tags Cases.wrapped_paragraph) []
    = "A paragraph that is long enough to count."%string
      :: "A paragraph that is long enough to count."%string :: rest.
Proof.
  exact (wrapper_repeats_text "article" [] [] [] "p"
           [Text "A paragraph that is long enough to count."]
           eq_refl eq_refl).
Defined.

End BodyFacts.

(* ===================================================================== *)
(** * The key check and the two other browser services *)
(* ===================================================================== *)

Module OtherFacts.
Import Str StrFacts Py Eff World Observed.
Local Open Scope eff_scope.

(** X21.  The check of the API key accepts a key exactly when something
    is left of it once stripped: an accepted key is returned stripped,
    is not empty and passes the check again unchanged; an empty or blank
    key is a [ValueError]. *)
Theorem api_key_is_stripped (v : string) :
  (forall k, ConfigValidation.validate_api_key v = inr k ->
             k = strip v /\ k <> ""%string
             /\ ConfigValidation.validate_api_key k = inr k)
  /\ (strip v = ""%string ->
      ConfigValidation.validate_api_key v = inl ValueError).
Proof.
  unfold ConfigValidation.validate_api_key, truthy_str. split.
  - intros k.
    destruct (v =? "")%string eqn:Ev; cbn [negb orb]; [discriminate|].
    destruct (strip v =? "")%string eqn:Es; cbn [negb]; [discriminate|].
    intros [= <-]. apply String.eqb_neq in Es. repeat split; trivial.
    rewrite strip_idem.
    destruct (strip v =? "")%string eqn:Es'.
    + apply String.eqb_eq in Es'. contradiction.
    + reflexivity.
  - intros Blank. rewrite Blank. cbn. now rewrite orb_true_r.
Qed.

Lemma api_key_is_stripped_witness :
  ConfigValidation.validate_api_key "  sk-proj-1  " = inr "sk-proj-1"%string
  /\ ConfigValidation.validate_api_key "   " = inl ValueError.
Proof.
  split.
  - destruct (proj1 (api_key_is_stripped "  sk-proj-1  ") "sk-proj-1"%string
                eq_refl) as (_ & _ & Again).
    exact Again.
  - apply (proj2 (api_key_is_stripped "   ")). reflexivity.
Defined.

Section Simple.
Context {W : Type}.
Variable http_get : string -> W -> W * (exn + string).
Variable aclose : W -> W * (exn + unit).

(** X22.  In the HTTP-only service [get_html] answers with the page of
    the last load that went through.  A load that goes through returns
    the text of the response and [get_html] returns that text after it;
    a load that fails raises a [RuntimeError] whatever the client
    raised, and [get_html] still returns the HTML of the page before. *)
Theorem simple_get_html_follows_load (url : string)
  (s : SimpleBrowserService.state W) :
  (forall text,
     snd (http_get url (SimpleBrowserService.world s)) = inr text ->
     exists s',
       SimpleBrowserService.load_page http_get url s = (s', inr text)
       /\ SimpleBrowserService.get_html s' = (s', inr text))
  /\ (forall e,
        snd (http_get url (SimpleBrowserService.world s)) = inl e ->
        exists s',
          SimpleBrowserService.load_page http_get url s
          = (s', inl RuntimeError)
          /\ SimpleBrowserService.get_html s'
             = (s', inr (SimpleBrowserService.current_html s))).
Proof.
  unfold SimpleBrowserService.load_page, SimpleBrowserService._init_client,
    SimpleBrowserService.get_html, SimpleBrowserService.call,
    SimpleBrowserService.set_client, SimpleBrowserService.set_current_html,
    catch, bind, get_store, ret, raise.
  split.
  - intros text Got.
    destruct (SimpleBrowserService.client s); cbn in *;
      destruct (http_get url (SimpleBrowserService.world s)) as [w r];
      cbn in *; subst r; eexists; split; reflexivity.
  - intros e Failed.
    destruct (SimpleBrowserService.client s); cbn in *;
      destruct (http_get url (SimpleBrowserService.world s)) as [w r];
      cbn in *; subst r; eexists; split; reflexivity.
Qed.

End Simple.

Lemma simple_get_html_follows_load_witness :
  (exists s',
      SimpleBrowserService.load_page Cases.one_page "https://example.com/"
        {| SimpleBrowserService.world := 0%nat;
           SimpleBrowserService.client := false;
           SimpleBrowserService.current_html := "" |}
      = (s', inr "<html>first</html>"%string)
      /\ SimpleBrowserService.get_html s'
         = (s', inr "<html>first</html>"%string))
  /\ (exists s',
         SimpleBrowserService.load_page Cases.one_page
           "https://example.com/gone" Cases.after_first_page
         = (s', inl RuntimeError)
         /\ SimpleBrowserService.get_html s'
            = (s', inr "<html>first</html>"%string)).
Proof.
  split.
  - apply (proj1 (simple_get_html_follows_load Cases.one_page
                    "https://example.com/" _)).
    reflexivity.
  - apply (proj2 (simple_get_html_follows_load Cases.one_page
                    "https://example.com/gone" Cases.after_first_page)
             DriverError).
    reflexivity.
Defined.

Section Sync.
Context {E : Env}.

(** X23.  [click_element] of the synchronous service never raises and
    never touches the handles; without a page it answers [False] and
    makes no driver call; with a page it is the first strategy of the
    asynchronous service and nothing more: one standard click and one
    pause, [True] when both went through. *)
Theorem sync_click_is_standard_click (selector : value) (s : state E) :
  (exists s' clicked,
      SyncBrowserService.click_element selector s = (s', inr clicked)
      /\ same_handles s s')
  /\ SyncBrowserService.click_element selector s
     = (if page s then BrowserService.standard_click selector s
        else (s, inr false)).
Proof.
  assert (Eq : SyncBrowserService.click_element selector s
               = (if page s then BrowserService.standard_click selector s
                  else (s, inr false))).
  { unfold SyncBrowserService.click_element, BrowserService.standard_click,
      BrowserService.attempt, catch, bind, get_store, ret, raise.
    destruct (page s); [|reflexivity].
    destruct (BrowserService.call
                (page_click E (Css selector) 5000 false) s)
      as [s1 [e1|[]]]; [reflexivity|].
    destruct (BrowserService.call (page_wait_for_timeout E 1000) s1)
      as [s2 [e2|[]]]; reflexivity. }
  split; [|exact Eq].
  rewrite Eq. destruct (page s).
  - destruct (BrowserFacts.standard_click_returns selector s)
      as (s' & clicked & Run).
    exists s', clicked. split; [exact Run|].
    assert (Steady : steady (BrowserService.standard_click (E:=E) selector)).
    { unfold BrowserService.standard_click, BrowserService.attempt.
      apply ServiceFacts.steady_catch.
      - apply ServiceFacts.steady_bind.
        + apply ServiceFacts.steady_bind;
            [apply ServiceFacts.steady_call|].
          intros _. apply ServiceFacts.steady_call.
        + intros _. apply ServiceFacts.steady_ret.
      - intros _. apply ServiceFacts.steady_ret. }
    specialize (Steady s). now rewrite Run in Steady.
  - exists s, false. split; [reflexivity|]. now repeat split.
Qed.

End Sync.

End OtherFacts.

(* ===================================================================== *)
(** * Where the engine and the scan stop *)
(* ===================================================================== *)

Module StopFacts.
Import Py Eff World BrowserService Main Stated Observed MainFacts.
Local Open Scope eff_scope.
Local Open Scope list_scope.

Section Stop.
Context {E : Env}.

(** X24.  [click_element] stops at the standard click when that works:
    its answer is [True] and the state is the one the standard click
    left, so no text, force, JavaScript or frame click is tried after
    it, whatever the button text. *)
Theorem standard_click_is_enough (selector button_text : value)
  (s s1 : state E) :
  page s = true ->
  standard_click selector s = (s1, inr true) ->
  click_element selector button_text s = (s1, inr true).
Proof.
  intros Page Std. unfold click_element, catch, bind at 1, get_store.
  rewrite Page. cbn [negb]. unfold bind at 1. rewrite Std. reflexivity.
Qed.

(** X25.  Once a candidate has been clicked the rest of the oracle's
    list is not read: the scan answers [True] and ends in the same state
    whatever follows that candidate, be it candidates that would
    qualify or values that are no candidates at all. *)
Theorem candidates_after_a_click_are_not_read (element : value)
  (rest rest' : list value) (s s1 : state E) :
  qualifies element = true ->
  click_element (fst (target element)) (snd (target element)) s
  = (s1, inr true) ->
  scan_elements (element :: rest) s = scan_elements (element :: rest') s
  /\ snd (scan_elements (element :: rest) s) = inr true.
Proof.
  intros Q Click.
  destruct (scan_qualifying element rest s Q)
    as (s2 & clicked & Click2 & _ & Step).
  destruct (scan_qualifying element rest' s Q)
    as (s2' & clicked' & Click2' & _ & Step').
  rewrite Click in Click2, Click2'.
  injection Click2 as <- <-. injection Click2' as <- <-.
  cbv zeta in Step, Step'. rewrite Step, Step'. split; reflexivity.
Qed.

End Stop.

Lemma standard_click_is_enough_witness :
  click_element (VStr "#accept") (VStr "Accept All")
    (Scripted.loaded (E:=Samples.with_banner) 0%nat)
  = (Build_state Samples.with_banner 1%nat true true true [], inr true).
Proof.
  apply standard_click_is_enough; reflexivity.
Defined.

Lemma candidates_after_a_click_are_not_read_witness :
  scan_elements [Cases.accept_button; VStr "not a candidate"]
    (Scripted.loaded (E:=Samples.with_banner) 0%nat)
  = scan_elements [Cases.accept_button]
      (Scripted.loaded (E:=Samples.with_banner) 0%nat)
  /\ snd (scan_elements [Cases.accept_button; VStr "not a candidate"]
            (Scripted.loaded (E:=Samples.with_banner) 0%nat))
     = inr true.
Proof.
  apply (candidates_after_a_click_are_not_read Cases.accept_button
           [VStr "not a candidate"] []
           (Scripted.loaded (E:=Samples.with_banner) 0%nat)
           (Build_state Samples.with_banner 1%nat true true true []));
    reflexivity.
Defined.

End StopFacts.
